(** * The animation loop of the jet-ski landing page

    A shallow embedding of the per-frame and per-scroll updates of the
    two revisions of [pages/index.js]:

    - the earlier one: two terrains that slide along the depth axis at
      rate 0.1;
    - the later one: three terrains with the rate set to 0, and a camera
      whose depth follows the scroll offset of the page.

    The page is embedded twice.

    [Early] and [Late] take JavaScript numbers as exact rationals ([Q]): a
    decimal literal denotes its decimal value and arithmetic is exact.
    They carry the statements that rounding does not touch: the ranges of
    the depths, the literals that are stored, what a callback leaves
    alone, and the absence of failures.  Numeric results are compared with
    [==].  [NaN], the only non-rational value the code could produce (a
    remainder by zero), is a failure there.  The canvas commits its
    children when it mounts, and [render()] is a call on the composer that
    writes nothing that is modelled.

    [Early64] and [Late64] take numbers as IEEE 754 binary64 values, so
    that every product, sum, difference and remainder is the double that
    the code computes.  There [render()] draws the scene with the camera
    and fills the texture slot of the shader pass, the children of the
    canvas are committed when the textures they wait for are loaded, and a
    callback that throws leaves the writes it has made.  They carry the
    statements about the numbers that are written, about what a tick
    changes, and about when the ticks begin.

    React and react-three-fiber are embedded by what they do with this
    code: refs are [option]s that the commit of the canvas fills, the
    [useFrame] callbacks run once per animation frame while the children
    of the canvas are committed, and a [useEffect] runs when its
    dependency changes. *)

From Stdlib Require Import ZArith QArith Qround Qminmax Lqa Lia List.
From Stdlib Require Import SpecFloat PrimFloat FloatOps.
From stdpp Require Import base gmap strings.
Import ListNotations.

Local Open Scope Q_scope.

(** ** JavaScript numbers and failures *)

Module JS.

(** What makes a callback fail: reading a property of [undefined], or a
    number that is not a rational. *)
Inductive Error : Type :=
| TypeError
| NotANumber.

Inductive Result (A : Type) : Type :=
| Ok (a : A)
| Throw (e : Error).

Arguments Ok {A} a.
Arguments Throw {A} e.

Definition bind {A B : Type} (r : Result A) (k : A -> Result B) : Result B :=
  match r with
  | Ok a => k a
  | Throw e => Throw e
  end.

(** [ref.current.field]: reading through a ref that was never attached
    throws. *)
Definition current {A : Type} (ref : option A) : Result A :=
  match ref with
  | Some a => Ok a
  | None => Throw TypeError
  end.

(** Truncation toward zero. *)
Definition trunc (q : Q) : Z := Z.quot (Qnum q) (Zpos (Qden q)).

(** The value of [n % d] for a non-zero [d]: [n - d * trunc (n / d)],
    which carries the sign of the dividend. *)
Definition fmod (n d : Q) : Q := n - d * inject_Z (trunc (n / d)).

(** [n % d]; a zero divisor gives [NaN]. *)
Definition rem (n d : Q) : Result Q :=
  if Qeq_bool d 0 then Throw NotANumber else Ok (fmod n d).

(** [Math.PI], the double nearest to pi: 884279719003555 / 2^48. *)
Definition Math_PI : Q := 884279719003555 # 281474976710656.

End JS.

Import JS.

Notation "'let*' x ':=' r 'in' k" := (bind r (fun x => k))
  (at level 10, x name, r at level 100, k at level 200).

(** ** The objects of three.js that the page touches *)

Module Three.

Record Vector3 : Type := { x : Q; y : Q; z : Q }.

Record Euler : Type := { rx : Q; ry : Q; rz : Q }.

(** A mesh or a camera: what [position={[..]}] and [rotation={[..]}]
    set. *)
Record Object3D : Type := { position : Vector3; rotation : Euler }.

Definition no_rotation : Euler := {| rx := 0; ry := 0; rz := 0 |}.

(** [o.position.z = v] *)
Definition set_position_z (o : Object3D) (v : Q) : Object3D :=
  {| position := {| x := x (position o); y := y (position o); z := v |};
     rotation := rotation o |}.

(** [o.position.set(a, b, c)] *)
Definition position_set (o : Object3D) (a b c : Q) : Object3D :=
  {| position := {| x := a; y := b; z := c |}; rotation := rotation o |}.

(** The value of a shader uniform: a number, or something that is not
    one ([null], or the texture of the slot that the composer fills when it
    renders). *)
Inductive UniformValue : Type :=
| UNumber (q : Q)
| UOther.

Record Uniform : Type := { value : UniformValue }.

(** A shader as [ShaderPass] takes it: its table of uniforms by name. *)
Record Shader : Type := { shader_uniforms : gmap string Uniform }.

(** [new ShaderPass(shader)] owns a copy of the shader's uniforms. *)
Record ShaderPass : Type := { uniforms : gmap string Uniform }.

Definition new_ShaderPass (s : Shader) : ShaderPass :=
  {| uniforms := shader_uniforms s |}.

(** [pass.uniforms[name].value = v]: the entry has to exist. *)
Definition set_uniform_value (pass : ShaderPass) (name : string) (v : Q)
  : Result ShaderPass :=
  match uniforms pass !! name with
  | Some _ => Ok {| uniforms := <[name := {| value := UNumber v |}]> (uniforms pass) |}
  | None => Throw TypeError
  end.

(** The effect composer.  Its [render()] draws the frame from the scene;
    it assigns no position, no rotation and no numeric uniform. *)
Inductive EffectComposer : Type := Composer.

Definition uniform_number (pass : ShaderPass) (name : string) : option Q :=
  match uniforms pass !! name with
  | Some {| value := UNumber q |} => Some q
  | _ => None
  end.

(** Two states of an object that differ at most in the depth of its
    position. *)
Definition same_but_depth (o o' : Object3D) : Prop :=
  x (position o') = x (position o) /\ y (position o') = y (position o) /\
  rotation o' = rotation o.

End Three.

Import Three.

(** ** The earlier revision: [src/pages/index.js] *)

Module Early.

Section Page.

(** [RGBShiftShader] of three-stdlib, which the page imports. *)
Variable RGBShiftShader : Shader.

(** The refs of [Landscape] and [Effects], and the default camera. *)
Record World : Type := {
  terrain1Ref : option Object3D;
  terrain2Ref : option Object3D;
  rgbShiftRef : option ShaderPass;
  composerRef : option EffectComposer;
  camera : Object3D
}.

(** [<mesh ref={ref} position={[0, 0, z]} rotation={[-Math.PI * 0.5, 0, 0]}>] *)
Definition Terrain (z : Q) : Object3D :=
  {| position := {| x := 0; y := 0; z := z |};
     rotation := {| rx := - Math_PI * 0.5; ry := 0; rz := 0 |} |}.

(** The instances that [Landscape] declares, the [z] each is given,
    and the ref each is attached to. *)
Inductive TerrainId : Type := terrain1 | terrain2.

Definition stagger (i : TerrainId) : Q :=
  match i with
  | terrain1 => 0
  | terrain2 => -2
  end.

Definition terrainRef (i : TerrainId) (w : World) : option Object3D :=
  match i with
  | terrain1 => terrain1Ref w
  | terrain2 => terrain2Ref w
  end.

(** Every terrain ref is attached. *)
Definition attached (w : World) : bool :=
  match terrain1Ref w, terrain2Ref w with
  | Some _, Some _ => true
  | _, _ => false
  end.

(** The depth of an instance, when its ref is attached. *)
Definition depth (i : TerrainId) (w : World) : option Q :=
  match terrainRef i w with
  | Some m => Some (z (position m))
  | None => None
  end.

(** The amount of the RGB shift, when the pass is attached. *)
Definition amount (w : World) : option Q :=
  match rgbShiftRef w with
  | Some pass => uniform_number pass "amount"
  | None => None
  end.

Definition set_terrain1 (w : World) (m : Object3D) : World :=
  {| terrain1Ref := Some m; terrain2Ref := terrain2Ref w;
     rgbShiftRef := rgbShiftRef w; composerRef := composerRef w;
     camera := camera w |}.

Definition set_terrain2 (w : World) (m : Object3D) : World :=
  {| terrain1Ref := terrain1Ref w; terrain2Ref := Some m;
     rgbShiftRef := rgbShiftRef w; composerRef := composerRef w;
     camera := camera w |}.

Definition set_rgbShift (w : World) (pass : ShaderPass) : World :=
  {| terrain1Ref := terrain1Ref w; terrain2Ref := terrain2Ref w;
     rgbShiftRef := Some pass; composerRef := composerRef w;
     camera := camera w |}.

(** The [useFrame] callback of [Landscape]:
<<
terrain1Ref.current.position.z = (state.clock.elapsedTime * 0.1) % 2;
terrain2Ref.current.position.z = ((state.clock.elapsedTime * 0.1) % 2) - 2;
>> *)
Definition Landscape_useFrame (elapsedTime : Q) (w : World) : Result World :=
  let* t1 := current (terrain1Ref w) in
  let* v1 := rem (elapsedTime * 0.1) 2 in
  let w := set_terrain1 w (set_position_z t1 v1) in
  let* t2 := current (terrain2Ref w) in
  let* v2 := rem (elapsedTime * 0.1) 2 in
  Ok (set_terrain2 w (set_position_z t2 (v2 - 2))).

(** The [useFrame] callback of [Effects]:
<<
if (rgbShiftRef.current) {
  rgbShiftRef.current.uniforms["amount"].value = 0.0012;
}
composerRef.current.render();
>> *)
Definition Effects_useFrame (w : World) : Result World :=
  let* w := match rgbShiftRef w with
            | Some pass =>
                let* pass := set_uniform_value pass "amount" 0.0012 in
                Ok (set_rgbShift w pass)
            | None => Ok w
            end in
  let* _ := current (composerRef w) in
  Ok w.

(** What the canvas holds once its children are committed: both
    terrains, the shader pass and the composer attached to their refs,
    and the camera of [<PerspectiveCamera position={[0, 0.11, 1.1]}>]. *)
Definition Canvas : World :=
  {| terrain1Ref := Some (Terrain 0);
     terrain2Ref := Some (Terrain (-2));
     rgbShiftRef := Some (new_ShaderPass RGBShiftShader);
     composerRef := Some Composer;
     camera := {| position := {| x := 0; y := 0.11; z := 1.1 |};
                  rotation := no_rotation |} |}.

(** Everything the frame callbacks read is there: the terrain refs and
    the composer are attached, and the shader pass, when it is attached,
    declares [amount]. *)
Definition ready (w : World) : bool :=
  attached w
  && match composerRef w with Some _ => true | None => false end
  && match rgbShiftRef w with
     | Some pass =>
         match uniforms pass !! "amount" with Some _ => true | None => false end
     | None => true
     end.

(** The state of [Scene]: its [mounted] flag and the canvas it renders
    ([!mounted ? null : <Canvas>]).  [ticks] is a ghost counter of the
    frames on which the [useFrame] callbacks ran. *)
Record Page : Type := {
  mounted : bool;
  canvas : option World;
  ticks : nat
}.

(** [React.useState(false)], nothing rendered yet. *)
Definition init : Page :=
  {| mounted := false; canvas := None; ticks := 0 |}.

Inductive Event : Type :=
| Mount                          (* the effect [setMounted(true)] runs *)
| AnimationFrame (elapsedTime : Q). (* one display refresh *)

(** The [useFrame] callbacks in the order of their priorities:
    [Landscape] (default), then [Effects] (priority 1). *)
Definition frame (elapsedTime : Q) (w : World) : Result World :=
  let* w := Landscape_useFrame elapsedTime w in
  Effects_useFrame w.

Definition step (p : Page) (e : Event) : Result Page :=
  match e with
  | Mount =>
      if mounted p then Ok p
      else Ok {| mounted := true; canvas := Some Canvas; ticks := ticks p |}
  | AnimationFrame elapsedTime =>
      if negb (mounted p) then Ok p
      else match canvas p with
           | None => Ok p
           | Some w =>
               let* w := frame elapsedTime w in
               Ok {| mounted := mounted p; canvas := Some w;
                     ticks := S (ticks p) |}
           end
  end.

Fixpoint run (p : Page) (es : list Event) : Result Page :=
  match es with
  | [] => Ok p
  | e :: es => let* p := step p e in run p es
  end.

(** The display refreshes of a trace. *)
Fixpoint count_frames (es : list Event) : nat :=
  match es with
  | [] => 0
  | AnimationFrame _ :: es => S (count_frames es)
  | _ :: es => count_frames es
  end.

End Page.

End Early.

(** ** The later revision: [src/unnamed/part_000] *)

Module Late.

Section Page.

(** [RGBShiftShader] of three-stdlib, which the page imports. *)
Variable RGBShiftShader : Shader.

(** The refs of [Landscape] and [Effects], and the default camera that
    [Foo] receives from [useThree]. *)
Record World : Type := {
  terrain1Ref : option Object3D;
  terrain2Ref : option Object3D;
  terrain3Ref : option Object3D;
  rgbShiftRef : option ShaderPass;
  composerRef : option EffectComposer;
  camera : Object3D
}.

(** [<mesh ref={ref} position={[0, 0, z]} rotation={[-Math.PI * 0.5, 0, 0]}>] *)
Definition Terrain (z : Q) : Object3D :=
  {| position := {| x := 0; y := 0; z := z |};
     rotation := {| rx := - Math_PI * 0.5; ry := 0; rz := 0 |} |}.

(** The instances that [Landscape] declares, the [z] each is given,
    and the ref each is attached to. *)
Inductive TerrainId : Type := terrain1 | terrain2 | terrain3.

Definition stagger (i : TerrainId) : Q :=
  match i with
  | terrain1 => 0
  | terrain2 => -2
  | terrain3 => 2
  end.

Definition terrainRef (i : TerrainId) (w : World) : option Object3D :=
  match i with
  | terrain1 => terrain1Ref w
  | terrain2 => terrain2Ref w
  | terrain3 => terrain3Ref w
  end.

(** Every terrain ref is attached. *)
Definition attached (w : World) : bool :=
  match terrain1Ref w, terrain2Ref w, terrain3Ref w with
  | Some _, Some _, Some _ => true
  | _, _, _ => false
  end.

(** The depth of an instance, when its ref is attached. *)
Definition depth (i : TerrainId) (w : World) : option Q :=
  match terrainRef i w with
  | Some m => Some (z (position m))
  | None => None
  end.

(** The amount of the RGB shift, when the pass is attached. *)
Definition amount (w : World) : option Q :=
  match rgbShiftRef w with
  | Some pass => uniform_number pass "amount"
  | None => None
  end.

Definition set_terrain1 (w : World) (m : Object3D) : World :=
  {| terrain1Ref := Some m; terrain2Ref := terrain2Ref w;
     terrain3Ref := terrain3Ref w;
     rgbShiftRef := rgbShiftRef w; composerRef := composerRef w;
     camera := camera w |}.

Definition set_terrain2 (w : World) (m : Object3D) : World :=
  {| terrain1Ref := terrain1Ref w; terrain2Ref := Some m;
     terrain3Ref := terrain3Ref w;
     rgbShiftRef := rgbShiftRef w; composerRef := composerRef w;
     camera := camera w |}.

Definition set_terrain3 (w : World) (m : Object3D) : World :=
  {| terrain1Ref := terrain1Ref w; terrain2Ref := terrain2Ref w;
     terrain3Ref := Some m;
     rgbShiftRef := rgbShiftRef w; composerRef := composerRef w;
     camera := camera w |}.

Definition set_rgbShift (w : World) (pass : ShaderPass) : World :=
  {| terrain1Ref := terrain1Ref w; terrain2Ref := terrain2Ref w;
     terrain3Ref := terrain3Ref w;
     rgbShiftRef := Some pass; composerRef := composerRef w;
     camera := camera w |}.

Definition set_camera (w : World) (c : Object3D) : World :=
  {| terrain1Ref := terrain1Ref w; terrain2Ref := terrain2Ref w;
     terrain3Ref := terrain3Ref w;
     rgbShiftRef := rgbShiftRef w; composerRef := composerRef w;
     camera := c |}.

(** The [useFrame] callback of [Landscape]:
<<
    terrain1Ref.current.position.z = (state.clock.elapsedTime * 0) % 2;
    terrain2Ref.current.position.z = ((state.clock.elapsedTime * 0) % 2) - 2;
    terrain3Ref.current.position.z = ((state.clock.elapsedTime * 0) % 2) + 2;
>> *)
Definition Landscape_useFrame (elapsedTime : Q) (w : World) : Result World :=
  let* t1 := current (terrain1Ref w) in
  let* v1 := rem (elapsedTime * 0) 2 in
  let w := set_terrain1 w (set_position_z t1 v1) in
  let* t2 := current (terrain2Ref w) in
  let* v2 := rem (elapsedTime * 0) 2 in
  let w := set_terrain2 w (set_position_z t2 (v2 - 2)) in
  let* t3 := current (terrain3Ref w) in
  let* v3 := rem (elapsedTime * 0) 2 in
  Ok (set_terrain3 w (set_position_z t3 (v3 + 2))).

(** The [useFrame] callback of [Effects]:
<<
    if (rgbShiftRef.current) {
      rgbShiftRef.current.uniforms["amount"].value = 0.0012;
    }
    composerRef.current.render();
>> *)
Definition Effects_useFrame (w : World) : Result World :=
  let* w := match rgbShiftRef w with
            | Some pass =>
                let* pass := set_uniform_value pass "amount" 0.0012 in
                Ok (set_rgbShift w pass)
            | None => Ok w
            end in
  let* _ := current (composerRef w) in
  Ok w.

(** The effect of [Foo], which runs when [scroll] changes:
<<
  camera.position.set(0, 0.1, (-2.4+(scroll * 0.003)));
>> *)
Definition Foo_useEffect (scroll : Q) (w : World) : World :=
  set_camera w (position_set (camera w) 0 0.1 (-2.4 + (scroll * 0.003))).

(** What the canvas holds once its children are committed: the three
    terrains, the shader pass and the composer attached to their refs,
    and the camera of [<PerspectiveCamera position={[0, 0.1, -2.4]}>]. *)
Definition Canvas : World :=
  {| terrain1Ref := Some (Terrain 0);
     terrain2Ref := Some (Terrain (-2));
     terrain3Ref := Some (Terrain 2);
     rgbShiftRef := Some (new_ShaderPass RGBShiftShader);
     composerRef := Some Composer;
     camera := {| position := {| x := 0; y := 0.1; z := -2.4 |};
                  rotation := no_rotation |} |}.

(** Everything the frame callbacks read is there: the terrain refs and
    the composer are attached, and the shader pass, when it is attached,
    declares [amount]. *)
Definition ready (w : World) : bool :=
  attached w
  && match composerRef w with Some _ => true | None => false end
  && match rgbShiftRef w with
     | Some pass =>
         match uniforms pass !! "amount" with Some _ => true | None => false end
     | None => true
     end.

(** The state of [Home] and [Scene]: the [scroll] offset, the [mounted]
    flag and the canvas that [Scene] renders
    ([!mounted ? null : <Canvas>]).  [ticks] is a ghost counter of the
    frames on which the [useFrame] callbacks ran. *)
Record Page : Type := {
  mounted : bool;
  scroll : Q;
  canvas : option World;
  ticks : nat
}.

(** [React.useState(false)], [React.useState(0)], nothing rendered yet. *)
Definition init : Page :=
  {| mounted := false; scroll := 0; canvas := None; ticks := 0 |}.

Inductive Event : Type :=
| Mount                             (* the effect [setMounted(true)] runs *)
| AnimationFrame (elapsedTime : Q)  (* one display refresh *)
| Scroll (scrollTop : Q).           (* [onScroll]: [setScroll(scrollTop)] *)

(** The [useFrame] callbacks in the order of their priorities:
    [Landscape] (default), then [Effects] (priority 1). *)
Definition frame (elapsedTime : Q) (w : World) : Result World :=
  let* w := Landscape_useFrame elapsedTime w in
  Effects_useFrame w.

(** One event of the page.  Mounting commits the canvas and runs the
    effect of [Foo] for the first time.  A scroll to the offset the state
    already holds re-renders nothing; any other offset is stored and, when
    the canvas is there, the effect of [Foo] runs with it. *)
Definition step (p : Page) (e : Event) : Result Page :=
  match e with
  | Mount =>
      if mounted p then Ok p
      else Ok {| mounted := true; scroll := scroll p;
                 canvas := Some (Foo_useEffect (scroll p) Canvas);
                 ticks := ticks p |}
  | AnimationFrame elapsedTime =>
      if negb (mounted p) then Ok p
      else match canvas p with
           | None => Ok p
           | Some w =>
               let* w := frame elapsedTime w in
               Ok {| mounted := mounted p; scroll := scroll p;
                     canvas := Some w; ticks := S (ticks p) |}
           end
  | Scroll scrollTop =>
      if Qeq_bool scrollTop (scroll p) then Ok p
      else Ok {| mounted := mounted p; scroll := scrollTop;
                 canvas := match canvas p with
                           | Some w => Some (Foo_useEffect scrollTop w)
                           | None => None
                           end;
                 ticks := ticks p |}
  end.

Fixpoint run (p : Page) (es : list Event) : Result Page :=
  match es with
  | [] => Ok p
  | e :: es => let* p := step p e in run p es
  end.

(** The display refreshes of a trace. *)
Fixpoint count_frames (es : list Event) : nat :=
  match es with
  | [] => 0
  | AnimationFrame _ :: es => S (count_frames es)
  | _ :: es => count_frames es
  end.

End Page.

End Late.

(** ** The formula of the specification *)

(** The modulo of the specification: the remainder of the floored
    division, which lies between 0 and a positive [period]. *)
Definition Qmod (a period : Q) : Q := a - period * inject_Z (Qfloor (a / period)).

(** [RGBShiftShader] as three-stdlib declares it: a texture slot, the
    amount of the shift and its angle. *)
Definition RGBShiftShader_stdlib : Shader :=
  {| shader_uniforms :=
       <["tDiffuse" := {| value := UOther |}]>
       (<["amount" := {| value := UNumber 0.005 |}]>
       (<["angle" := {| value := UNumber 0.0 |}]> ∅)) |}.

(** What holds of the canvas from its commit on: every terrain is
    attached and has the x, the y and the rotation of its construction,
    the shader pass is attached and declares [amount], and the composer is
    attached. *)
Definition Early_world_ok (w : Early.World) : Prop :=
  (forall i, exists m, Early.terrainRef i w = Some m /\
     x (position m) = 0 /\ y (position m) = 0 /\
     rotation m = rotation (Early.Terrain 0)) /\
  (exists pass, Early.rgbShiftRef w = Some pass /\
     is_Some (uniforms pass !! "amount"%string)) /\
  Early.composerRef w = Some Composer.

Definition Late_world_ok (w : Late.World) : Prop :=
  (forall i, exists m, Late.terrainRef i w = Some m /\
     x (position m) = 0 /\ y (position m) = 0 /\
     rotation m = rotation (Late.Terrain 0)) /\
  (exists pass, Late.rgbShiftRef w = Some pass /\
     is_Some (uniforms pass !! "amount"%string)) /\
  Late.composerRef w = Some Composer.

(** The pages that the events reach: nothing before the mount (no canvas,
    no tick); after it a canvas as above, whose shift amount is the
    literal of [Effects] once a frame has run (and, in the later revision,
    whose camera depth follows the scroll offset). *)
Definition Early_page_ok (p : Early.Page) : Prop :=
  if Early.mounted p then
    exists w, Early.canvas p = Some w /\ Early_world_ok w /\
      ((0 < Early.ticks p)%nat -> Early.amount w = Some 0.0012)
  else Early.canvas p = None /\ Early.ticks p = 0%nat.

Definition Late_page_ok (p : Late.Page) : Prop :=
  if Late.mounted p then
    exists w, Late.canvas p = Some w /\ Late_world_ok w /\
      z (position (Late.camera w)) == -2.4 + Late.scroll p * 0.003 /\
      ((0 < Late.ticks p)%nat -> Late.amount w = Some 0.0012)
  else Late.canvas p = None /\ Late.ticks p = 0%nat.

(** ** What [Scene] and [Effects] compute when they render *)

Module Render.

(** The [window] of the browser, of which the page reads the pixel ratio.
    Next.js renders the page on the server as well, where there is none. *)
Record Window : Type := { devicePixelRatio : Q }.

(** What [Scene] returns: [null], or the canvas with its [dpr]. *)
Inductive Element : Type :=
| Null
| CanvasElement (dpr : Q).

(** A render returns an element, or throws because [window] is not
    declared. *)
Inductive Rendering : Type :=
| Returns (e : Element)
| ReferenceError.

(** The return of [Scene], in both revisions:
<<
{!mounted ? null : (
  <Canvas ... dpr={Math.min(window.devicePixelRatio, 2)} linear antialias>
>> *)
Definition Scene_render (mounted : bool) (window : option Window) : Rendering :=
  if negb mounted then Returns Null
  else match window with
       | Some win => Returns (CanvasElement (Qmin (devicePixelRatio win) 2))
       | None => ReferenceError
       end.

(** The [size] that [Effects] receives from [useThree]. *)
Record Size : Type := { width : Q; height : Q }.

(** The effect of [Effects], which runs when [size] changes:
<<
composerRef?.current.setSize(size.width, size.height);
>>
    The ref object is always there, so the [?.] guards nothing: the call
    goes through [current].  The result is the size the composer takes. *)
Definition Effects_useEffect (size : Size) (composerRef : option EffectComposer)
  : Result (Q * Q) :=
  let* _ := current composerRef in
  Ok (width size, height size).

End Render.

(** The scroll events of a trace. *)
Definition is_scroll (e : Late.Event) : bool :=
  match e with
  | Late.Scroll _ => true
  | _ => false
  end.

(** Two worlds of the later revision that differ at most in the position
    of the camera. *)
Definition same_but_camera_position (w w' : Late.World) : Prop :=
  (forall i, Late.terrainRef i w' = Late.terrainRef i w) /\
  Late.rgbShiftRef w' = Late.rgbShiftRef w /\
  Late.composerRef w' = Late.composerRef w /\
  rotation (Late.camera w') = rotation (Late.camera w).

(** * The page on the doubles of JavaScript

    The second embedding keeps what the first leaves out.  Numbers are
    IEEE 754 binary64 values ([spec_float] with 53 bits of precision), so
    that each product, sum and difference is rounded as the code rounds
    it, and [%] is the exact remainder of two doubles.  The [render()] of
    the composer draws: it records the terrains and the camera that the
    render pass is given, and puts its texture in the texture slot of the
    shader pass.  The children of the canvas sit under
    [<React.Suspense>] and load textures with [useTexture]: they are
    committed by a separate event, after the mount.  A callback that throws
    leaves the writes it has made. *)

Module B64.

Definition prec : Z := 53.
Definition emax : Z := 1024.

Definition mul : spec_float -> spec_float -> spec_float := SFmul prec emax.
Definition add : spec_float -> spec_float -> spec_float := SFadd prec emax.
Definition sub : spec_float -> spec_float -> spec_float := SFsub prec emax.
Definition opp : spec_float -> spec_float := SFopp.

(** [n % d] on doubles: the exact remainder of the division truncated
    toward zero, with the sign of the dividend; [NaN] when the dividend is
    not finite or the divisor is zero; the dividend itself when the
    divisor is infinite or the dividend is a zero. *)
Definition rem (n d : spec_float) : spec_float :=
  match n, d with
  | S754_nan, _ | _, S754_nan => S754_nan
  | S754_infinity _, _ => S754_nan
  | _, S754_zero _ => S754_nan
  | S754_zero _, _ => n
  | _, S754_infinity _ => n
  | S754_finite sn mn en, S754_finite _ md ed =>
      let e := Z.min en ed in
      match Z.rem (Zpos mn * 2 ^ (en - e)) (Zpos md * 2 ^ (ed - e)) with
      | Z0 => S754_zero sn
      | r => binary_normalize prec emax (cond_Zopp sn r) e false
      end
  end.

(** The modulo of the specification on doubles: the remainder of the
    floored division by a positive finite period, which is never negative;
    where it is no double (a negative dividend may leave one) it is
    rounded. *)
Definition modulo (n d : spec_float) : spec_float :=
  match n, d with
  | S754_zero _, S754_finite false _ _ => S754_zero false
  | S754_finite sn mn en, S754_finite false md ed =>
      let e := Z.min en ed in
      match Z.modulo (cond_Zopp sn (Zpos mn * 2 ^ (en - e))) (Zpos md * 2 ^ (ed - e)) with
      | Z0 => S754_zero false
      | r => binary_normalize prec emax r e false
      end
  | _, _ => S754_nan
  end.

(** The numbers below zero. *)
Definition negative (a : spec_float) : bool :=
  match a with
  | S754_finite true _ _ | S754_infinity true => true
  | _ => false
  end.

(** [Object.is] on two numbers: the same double ([NaN] is [NaN], and the
    two zeros differ). *)
Definition Object_is (a b : spec_float) : bool :=
  match a, b with
  | S754_zero s1, S754_zero s2 => Bool.eqb s1 s2
  | S754_infinity s1, S754_infinity s2 => Bool.eqb s1 s2
  | S754_nan, S754_nan => true
  | S754_finite s1 m1 e1, S754_finite s2 m2 e2 =>
      Bool.eqb s1 s2 && Pos.eqb m1 m2 && Z.eqb e1 e2
  | _, _ => false
  end.

(** The same number: the same double, or two doubles that [===] equates
    (the two zeros). *)
Definition same (a b : spec_float) : Prop := a = b \/ SFeqb a b = true.

Definition finite (a : spec_float) : bool :=
  match a with
  | S754_zero _ | S754_finite _ _ _ => true
  | _ => false
  end.

(** The rational that a finite double is. *)
Definition exact (a : spec_float) : option Q :=
  match a with
  | S754_zero _ => Some 0%Q
  | S754_finite s m (Zneg k) => Some (cond_Zopp s (Zpos m) # 2 ^ k)%Q
  | S754_finite s m e => Some (inject_Z (cond_Zopp s (Zpos m) * 2 ^ e))
  | _ => None
  end.

(** The literals of the page, as the doubles nearest to them. *)
Definition zero : spec_float := S754_zero false.
Definition one : spec_float := S754_finite false 4503599627370496 (-52).
Definition two : spec_float := S754_finite false 4503599627370496 (-51).
Definition minus_two : spec_float := S754_finite true 4503599627370496 (-51).
Definition lit_0_1 : spec_float := S754_finite false 7205759403792794 (-56).
Definition lit_0_0012 : spec_float := S754_finite false 5534023222112865 (-62).
Definition lit_0_003 : spec_float := S754_finite false 6917529027641082 (-61).
Definition lit_2_4 : spec_float := S754_finite false 5404319552844595 (-51).
Definition lit_0_11 : spec_float := S754_finite false 7926335344172073 (-56).
Definition lit_1_1 : spec_float := S754_finite false 4953959590107546 (-52).
Definition lit_0_5 : spec_float := S754_finite false 4503599627370496 (-53).
Definition lit_0_005 : spec_float := S754_finite false 5764607523034235 (-60).
Definition Math_PI : spec_float := S754_finite false 7074237752028440 (-51).

End B64.

#[global] Arguments B64.mul : simpl never.
#[global] Arguments B64.add : simpl never.
#[global] Arguments B64.sub : simpl never.
#[global] Arguments B64.opp : simpl never.
#[global] Arguments B64.rem : simpl never.
#[global] Arguments B64.modulo : simpl never.
#[global] Arguments B64.Object_is : simpl never.

Module Three64.

Import B64.

Record Vector3 : Type := { x : spec_float; y : spec_float; z : spec_float }.

Record Euler : Type := { rx : spec_float; ry : spec_float; rz : spec_float }.

Record Object3D : Type := { position : Vector3; rotation : Euler }.

Definition no_rotation : Euler := {| rx := zero; ry := zero; rz := zero |}.

(** [o.position.z = v] *)
Definition set_position_z (o : Object3D) (v : spec_float) : Object3D :=
  {| position := {| x := x (position o); y := y (position o); z := v |};
     rotation := rotation o |}.

(** [o.position.set(a, b, c)] *)
Definition position_set (o : Object3D) (a b c : spec_float) : Object3D :=
  {| position := {| x := a; y := b; z := c |}; rotation := rotation o |}.

(** The value of a uniform: [null], a number, or a texture. *)
Inductive UniformValue : Type :=
| UNull
| UNumber (v : spec_float)
| UTexture.

Record Uniform : Type := { value : UniformValue }.

Record Shader : Type := { shader_uniforms : gmap string Uniform }.

Record ShaderPass : Type := { uniforms : gmap string Uniform }.

Definition new_ShaderPass (s : Shader) : ShaderPass :=
  {| uniforms := shader_uniforms s |}.

(** [pass.uniforms[name].value = v], when the entry exists. *)
Definition assign_uniform (pass : ShaderPass) (name : string) (v : UniformValue)
  : option ShaderPass :=
  match uniforms pass !! name with
  | Some _ => Some {| uniforms := <[name := {| value := v |}]> (uniforms pass) |}
  | None => None
  end.

(** What a shader pass does with the output of the pass before it when it
    renders: [if (this.uniforms[this.textureID])
    this.uniforms[this.textureID].value = readBuffer.texture], the texture
    slot being ["tDiffuse"]. *)
Definition fill_texture_slot (pass : ShaderPass) : ShaderPass :=
  match assign_uniform pass "tDiffuse" UTexture with
  | Some pass' => pass'
  | None => pass
  end.

Definition uniform_value (pass : ShaderPass) (name : string) : option UniformValue :=
  match uniforms pass !! name with
  | Some u => Some (value u)
  | None => None
  end.

(** What the render pass drew last: the terrains of the scene and the
    camera it was given, as they were when it drew them. *)
Record Drawing : Type := { drawn_terrains : list Object3D; drawn_camera : Object3D }.

Record EffectComposer : Type := { screen : option Drawing }.

(** A callback returns, or throws and leaves the world as it had made it
    by then. *)
Inductive Outcome (W : Type) : Type :=
| Done (w : W)
| Thrown (e : Error) (w : W).

Arguments Done {W} w.
Arguments Thrown {W} e w.

Definition and_then {W : Type} (r : Outcome W) (k : W -> Outcome W) : Outcome W :=
  match r with
  | Done w => k w
  | Thrown e w => Thrown e w
  end.

Definition world_of {W : Type} (r : Outcome W) : W :=
  match r with
  | Done w => w
  | Thrown _ w => w
  end.

End Three64.

(** ** The earlier revision on doubles *)

Module Early64.

Import B64 Three64.

Section Page.

Variable RGBShiftShader : Shader.

Record World : Type := {
  terrain1Ref : option Object3D;
  terrain2Ref : option Object3D;
  rgbShiftRef : option ShaderPass;
  composerRef : option EffectComposer;
  camera : Object3D
}.

(** [<mesh ref={ref} position={[0, 0, z]} rotation={[-Math.PI * 0.5, 0, 0]}>] *)
Definition Terrain (z : spec_float) : Object3D :=
  {| position := {| x := zero; y := zero; z := z |};
     rotation := {| rx := mul (opp Math_PI) lit_0_5; ry := zero; rz := zero |} |}.

Inductive TerrainId : Type := terrain1 | terrain2.

Definition stagger (i : TerrainId) : spec_float :=
  match i with
  | terrain1 => zero
  | terrain2 => minus_two
  end.

Definition terrainRef (i : TerrainId) (w : World) : option Object3D :=
  match i with
  | terrain1 => terrain1Ref w
  | terrain2 => terrain2Ref w
  end.

Definition attached (w : World) : bool :=
  match terrain1Ref w, terrain2Ref w with
  | Some _, Some _ => true
  | _, _ => false
  end.

Definition depth (i : TerrainId) (w : World) : option spec_float :=
  match terrainRef i w with
  | Some m => Some (z (position m))
  | None => None
  end.

Definition set_terrain1 (w : World) (m : Object3D) : World :=
  {| terrain1Ref := Some m; terrain2Ref := terrain2Ref w;
     rgbShiftRef := rgbShiftRef w; composerRef := composerRef w;
     camera := camera w |}.

Definition set_terrain2 (w : World) (m : Object3D) : World :=
  {| terrain1Ref := terrain1Ref w; terrain2Ref := Some m;
     rgbShiftRef := rgbShiftRef w; composerRef := composerRef w;
     camera := camera w |}.

Definition set_rgbShift (w : World) (pass : ShaderPass) : World :=
  {| terrain1Ref := terrain1Ref w; terrain2Ref := terrain2Ref w;
     rgbShiftRef := Some pass; composerRef := composerRef w;
     camera := camera w |}.

(** The [useFrame] callback of [Landscape]:
<<
terrain1Ref.current.position.z = (state.clock.elapsedTime * 0.1) % 2;
terrain2Ref.current.position.z = ((state.clock.elapsedTime * 0.1) % 2) - 2;
>> *)
Definition Landscape_useFrame (elapsedTime : spec_float) (w : World) : Outcome World :=
  match terrain1Ref w with
  | None => Thrown TypeError w
  | Some t1 =>
      let w := set_terrain1 w (set_position_z t1 (rem (mul elapsedTime lit_0_1) two)) in
      match terrain2Ref w with
      | None => Thrown TypeError w
      | Some t2 =>
          Done (set_terrain2 w
                  (set_position_z t2 (sub (rem (mul elapsedTime lit_0_1) two) two)))
      end
  end.

(** The terrains that are in the scene when it is drawn. *)
Definition terrains (w : World) : list Object3D :=
  match terrain1Ref w with Some m => [m] | None => [] end ++
  match terrain2Ref w with Some m => [m] | None => [] end.

(** [composer.render()]: the render pass draws [scene] with [camera], and
    the shader pass takes its output in its texture slot. *)
Definition render (w : World) : World :=
  {| terrain1Ref := terrain1Ref w; terrain2Ref := terrain2Ref w;
     rgbShiftRef := match rgbShiftRef w with
                    | Some pass => Some (fill_texture_slot pass)
                    | None => None
                    end;
     composerRef := Some {| screen := Some {| drawn_terrains := terrains w;
                                              drawn_camera := camera w |} |};
     camera := camera w |}.

(** The [useFrame] callback of [Effects]:
<<
if (rgbShiftRef.current) {
  rgbShiftRef.current.uniforms["amount"].value = 0.0012;
}
composerRef.current.render();
>> *)
Definition Effects_useFrame (w : World) : Outcome World :=
  and_then
    match rgbShiftRef w with
    | Some pass =>
        match assign_uniform pass "amount" (UNumber lit_0_0012) with
        | Some pass' => Done (set_rgbShift w pass')
        | None => Thrown TypeError w
        end
    | None => Done w
    end
    (fun w => match composerRef w with
              | Some _ => Done (render w)
              | None => Thrown TypeError w
              end).

(** The callbacks of one frame, in the order of their priorities.  When
    the first throws, the second is not called. *)
Definition frame (elapsedTime : spec_float) (w : World) : Outcome World :=
  and_then (Landscape_useFrame elapsedTime w) Effects_useFrame.

(** What the canvas holds when its children are committed, with the
    camera of [<PerspectiveCamera position={[0, 0.11, 1.1]}>]. *)
Definition Canvas : World :=
  {| terrain1Ref := Some (Terrain zero);
     terrain2Ref := Some (Terrain minus_two);
     rgbShiftRef := Some (new_ShaderPass RGBShiftShader);
     composerRef := Some {| screen := None |};
     camera := {| position := {| x := zero; y := lit_0_11; z := lit_1_1 |};
                  rotation := no_rotation |} |}.

(** The state of [Scene]: its [mounted] flag, and the children of the
    canvas once they are committed. *)
Record Page : Type := {
  mounted : bool;
  canvas : option World
}.

Definition init : Page := {| mounted := false; canvas := None |}.

Inductive Event : Type :=
| Mount                                    (* the effect [setMounted(true)] runs *)
| TexturesLoaded                           (* what [useTexture] waits for is there *)
| AnimationFrame (elapsedTime : spec_float). (* one display refresh *)

(** One event.  The mount renders the canvas, whose children suspend; they
    are committed when the textures are loaded, and the frames run their
    callbacks from then on.  A callback that throws leaves its writes and
    the page goes on. *)
Definition step (p : Page) (e : Event) : Page :=
  match e with
  | Mount => {| mounted := true; canvas := canvas p |}
  | TexturesLoaded =>
      if negb (mounted p) then p
      else match canvas p with
           | None => {| mounted := mounted p; canvas := Some Canvas |}
           | Some _ => p
           end
  | AnimationFrame elapsedTime =>
      if negb (mounted p) then p
      else match canvas p with
           | None => p
           | Some w =>
               {| mounted := mounted p;
                  canvas := Some (world_of (frame elapsedTime w)) |}
           end
  end.

Definition run (p : Page) (es : list Event) : Page := fold_left step es p.

End Page.

End Early64.

(** ** The later revision on doubles *)

Module Late64.

Import B64 Three64.

Section Page.

Variable RGBShiftShader : Shader.

(** Which camera [useThree] hands to [Foo] when the children of the canvas
    are first rendered is decided by react-three-fiber and drei, not by
    the page: the camera of the scene, which [makeDefault] installs, or
    the camera that the canvas starts with, which is never drawn with. *)
Variable Foo_gets_scene_camera : bool.

Record World : Type := {
  terrain1Ref : option Object3D;
  terrain2Ref : option Object3D;
  terrain3Ref : option Object3D;
  rgbShiftRef : option ShaderPass;
  composerRef : option EffectComposer;
  camera : Object3D
}.

(** [<mesh ref={ref} position={[0, 0, z]} rotation={[-Math.PI * 0.5, 0, 0]}>] *)
Definition Terrain (z : spec_float) : Object3D :=
  {| position := {| x := zero; y := zero; z := z |};
     rotation := {| rx := mul (opp Math_PI) lit_0_5; ry := zero; rz := zero |} |}.

Inductive TerrainId : Type := terrain1 | terrain2 | terrain3.

Definition stagger (i : TerrainId) : spec_float :=
  match i with
  | terrain1 => zero
  | terrain2 => minus_two
  | terrain3 => two
  end.

Definition terrainRef (i : TerrainId) (w : World) : option Object3D :=
  match i with
  | terrain1 => terrain1Ref w
  | terrain2 => terrain2Ref w
  | terrain3 => terrain3Ref w
  end.

Definition attached (w : World) : bool :=
  match terrain1Ref w, terrain2Ref w, terrain3Ref w with
  | Some _, Some _, Some _ => true
  | _, _, _ => false
  end.

Definition depth (i : TerrainId) (w : World) : option spec_float :=
  match terrainRef i w with
  | Some m => Some (z (position m))
  | None => None
  end.

Definition set_terrain1 (w : World) (m : Object3D) : World :=
  {| terrain1Ref := Some m; terrain2Ref := terrain2Ref w;
     terrain3Ref := terrain3Ref w;
     rgbShiftRef := rgbShiftRef w; composerRef := composerRef w;
     camera := camera w |}.

Definition set_terrain2 (w : World) (m : Object3D) : World :=
  {| terrain1Ref := terrain1Ref w; terrain2Ref := Some m;
     terrain3Ref := terrain3Ref w;
     rgbShiftRef := rgbShiftRef w; composerRef := composerRef w;
     camera := camera w |}.

Definition set_terrain3 (w : World) (m : Object3D) : World :=
  {| terrain1Ref := terrain1Ref w; terrain2Ref := terrain2Ref w;
     terrain3Ref := Some m;
     rgbShiftRef := rgbShiftRef w; composerRef := composerRef w;
     camera := camera w |}.

Definition set_rgbShift (w : World) (pass : ShaderPass) : World :=
  {| terrain1Ref := terrain1Ref w; terrain2Ref := terrain2Ref w;
     terrain3Ref := terrain3Ref w;
     rgbShiftRef := Some pass; composerRef := composerRef w;
     camera := camera w |}.

Definition set_camera (w : World) (c : Object3D) : World :=
  {| terrain1Ref := terrain1Ref w; terrain2Ref := terrain2Ref w;
     terrain3Ref := terrain3Ref w;
     rgbShiftRef := rgbShiftRef w; composerRef := composerRef w;
     camera := c |}.

(** The [useFrame] callback of [Landscape]:
<<
terrain1Ref.current.position.z = (state.clock.elapsedTime * 0) % 2;
terrain2Ref.current.position.z = ((state.clock.elapsedTime * 0) % 2) - 2;
terrain3Ref.current.position.z = ((state.clock.elapsedTime * 0) % 2) + 2;
>> *)
Definition Landscape_useFrame (elapsedTime : spec_float) (w : World) : Outcome World :=
  match terrain1Ref w with
  | None => Thrown TypeError w
  | Some t1 =>
      let w := set_terrain1 w (set_position_z t1 (rem (mul elapsedTime zero) two)) in
      match terrain2Ref w with
      | None => Thrown TypeError w
      | Some t2 =>
          let w := set_terrain2 w
                     (set_position_z t2 (sub (rem (mul elapsedTime zero) two) two)) in
          match terrain3Ref w with
          | None => Thrown TypeError w
          | Some t3 =>
              Done (set_terrain3 w
                      (set_position_z t3 (add (rem (mul elapsedTime zero) two) two)))
          end
      end
  end.

(** The terrains that are in the scene when it is drawn. *)
Definition terrains (w : World) : list Object3D :=
  match terrain1Ref w with Some m => [m] | None => [] end ++
  match terrain2Ref w with Some m => [m] | None => [] end ++
  match terrain3Ref w with Some m => [m] | None => [] end.

(** [composer.render()]: the render pass draws [scene] with [camera], and
    the shader pass takes its output in its texture slot. *)
Definition render (w : World) : World :=
  {| terrain1Ref := terrain1Ref w; terrain2Ref := terrain2Ref w;
     terrain3Ref := terrain3Ref w;
     rgbShiftRef := match rgbShiftRef w with
                    | Some pass => Some (fill_texture_slot pass)
                    | None => None
                    end;
     composerRef := Some {| screen := Some {| drawn_terrains := terrains w;
                                              drawn_camera := camera w |} |};
     camera := camera w |}.

(** The [useFrame] callback of [Effects]:
<<
if (rgbShiftRef.current) {
  rgbShiftRef.current.uniforms["amount"].value = 0.0012;
}
composerRef.current.render();
>> *)
Definition Effects_useFrame (w : World) : Outcome World :=
  and_then
    match rgbShiftRef w with
    | Some pass =>
        match assign_uniform pass "amount" (UNumber lit_0_0012) with
        | Some pass' => Done (set_rgbShift w pass')
        | None => Thrown TypeError w
        end
    | None => Done w
    end
    (fun w => match composerRef w with
              | Some _ => Done (render w)
              | None => Thrown TypeError w
              end).

(** The effect of [Foo], which runs when [scroll] changes:
<<
camera.position.set(0, 0.1, (-2.4+(scroll * 0.003)));
>> *)
Definition Foo_useEffect (scroll : spec_float) (w : World) : World :=
  set_camera w
    (position_set (camera w) zero lit_0_1 (add (opp lit_2_4) (mul scroll lit_0_003))).

(** The callbacks of one frame, in the order of their priorities.  When
    the first throws, the second is not called. *)
Definition frame (elapsedTime : spec_float) (w : World) : Outcome World :=
  and_then (Landscape_useFrame elapsedTime w) Effects_useFrame.

(** What the canvas holds when its children are committed, with the
    camera of [<PerspectiveCamera position={[0, 0.1, -2.4]}>]. *)
Definition Canvas : World :=
  {| terrain1Ref := Some (Terrain zero);
     terrain2Ref := Some (Terrain minus_two);
     terrain3Ref := Some (Terrain two);
     rgbShiftRef := Some (new_ShaderPass RGBShiftShader);
     composerRef := Some {| screen := None |};
     camera := {| position := {| x := zero; y := lit_0_1; z := opp lit_2_4 |};
                  rotation := no_rotation |} |}.

(** The state of [Home] and [Scene]: the [scroll] offset, the [mounted]
    flag, and the children of the canvas once they are committed. *)
Record Page : Type := {
  mounted : bool;
  scroll : spec_float;
  canvas : option World
}.

Definition init : Page := {| mounted := false; scroll := zero; canvas := None |}.

Inductive Event : Type :=
| Mount                                     (* the effect [setMounted(true)] runs *)
| TexturesLoaded                            (* what the children wait for is there *)
| AnimationFrame (elapsedTime : spec_float) (* one display refresh *)
| Scroll (scrollTop : spec_float).          (* [onScroll]: [setScroll(scrollTop)] *)

(** One event.  The mount renders the canvas, whose children suspend; they
    are committed when the textures are loaded, the effect of [Foo] runs
    for the first time, on the camera it was handed, and the frames run
    their callbacks from then on.  A scroll to the offset that the state
    holds re-renders nothing; another offset is stored and, when the
    children are committed, the effect of [Foo] runs with it on the camera
    of the scene.  A callback that throws leaves its writes and the page
    goes on. *)
Definition step (p : Page) (e : Event) : Page :=
  match e with
  | Mount => {| mounted := true; scroll := scroll p; canvas := canvas p |}
  | TexturesLoaded =>
      if negb (mounted p) then p
      else match canvas p with
           | None => {| mounted := mounted p; scroll := scroll p;
                        canvas := Some (if Foo_gets_scene_camera
                                        then Foo_useEffect (scroll p) Canvas
                                        else Canvas) |}
           | Some _ => p
           end
  | AnimationFrame elapsedTime =>
      if negb (mounted p) then p
      else match canvas p with
           | None => p
           | Some w =>
               {| mounted := mounted p; scroll := scroll p;
                  canvas := Some (world_of (frame elapsedTime w)) |}
           end
  | Scroll scrollTop =>
      if Object_is scrollTop (scroll p) then p
      else {| mounted := mounted p; scroll := scrollTop;
              canvas := match canvas p with
                        | Some w => Some (Foo_useEffect scrollTop w)
                        | None => None
                        end |}
  end.

Definition run (p : Page) (es : list Event) : Page := fold_left step es p.

End Page.

End Late64.

(** [RGBShiftShader] as three-stdlib declares it, on doubles. *)
Definition RGBShiftShader64 : Three64.Shader :=
  {| Three64.shader_uniforms :=
       <["tDiffuse" := {| Three64.value := Three64.UNull |}]>
       (<["amount" := {| Three64.value := Three64.UNumber B64.lit_0_005 |}]>
       (<["angle" := {| Three64.value := Three64.UNumber B64.zero |}]> ∅)) |}.

(** The depth the specification gives an instance: the elapsed time
    scaled by [rate], reduced modulo [period], plus the stagger of the
    instance, with the product and the sum of doubles. *)
Definition depth_spec64 (rate period stagger elapsed_time : spec_float) : spec_float :=
  B64.add (B64.modulo (B64.mul elapsed_time rate) period) stagger.

(** What holds of the terrains of a canvas from their commit on: each is
    attached and has the x, the y and the rotation of its construction. *)
Definition Early64_terrains_ok (w : Early64.World) : Prop :=
  forall i, exists m, Early64.terrainRef i w = Some m /\
    Three64.x (Three64.position m) = B64.zero /\
    Three64.y (Three64.position m) = B64.zero /\
    Three64.rotation m = Three64.rotation (Early64.Terrain B64.zero).

Definition Late64_terrains_ok (w : Late64.World) : Prop :=
  forall i, exists m, Late64.terrainRef i w = Some m /\
    Three64.x (Three64.position m) = B64.zero /\
    Three64.y (Three64.position m) = B64.zero /\
    Three64.rotation m = Three64.rotation (Late64.Terrain B64.zero).

(** What holds of the effects of a canvas from their commit on, when the
    shader declares [amount]: the pass is attached and has the entry, and
    the composer is attached. *)
Definition Early64_effects_ok (w : Early64.World) : Prop :=
  (exists pass, Early64.rgbShiftRef w = Some pass /\
     is_Some (Three64.uniforms pass !! "amount"%string)) /\
  is_Some (Early64.composerRef w).

Definition Late64_effects_ok (w : Late64.World) : Prop :=
  (exists pass, Late64.rgbShiftRef w = Some pass /\
     is_Some (Three64.uniforms pass !! "amount"%string)) /\
  is_Some (Late64.composerRef w).

(** What the composer shows after it has drawn the world. *)
Definition Early64_drawn (w : Early64.World) : Prop :=
  Early64.composerRef w =
  Some {| Three64.screen :=
            Some {| Three64.drawn_terrains := Early64.terrains w;
                    Three64.drawn_camera := Early64.camera w |} |}.

Definition Late64_drawn (w : Late64.World) : Prop :=
  Late64.composerRef w =
  Some {| Three64.screen :=
            Some {| Three64.drawn_terrains := Late64.terrains w;
                    Three64.drawn_camera := Late64.camera w |} |}.

(** The position that the effect of [Foo] gives the camera for an offset. *)
Definition Foo_position (scroll : spec_float) : Three64.Vector3 :=
  {| Three64.x := B64.zero; Three64.y := B64.lit_0_1;
     Three64.z := B64.add (B64.opp B64.lit_2_4) (B64.mul scroll B64.lit_0_003) |}.

(** The events of a trace that are no scroll. *)
Definition no_scroll (e : Late64.Event) : bool :=
  match e with
  | Late64.Scroll _ => false
  | _ => true
  end.


(** ** The remainder *)



(** The divisor of the page is the literal 2: the remainder is a number. *)
Lemma rem_two (n : Q) : rem n 2 = Ok (fmod n 2).
Proof. reflexivity. Qed.

(** A product by the literal 0 leaves no remainder. *)
Lemma fmod_times_zero (t : Q) : fmod (t * 0) 2 == 0.
Proof.
  destruct t as [a b]. unfold fmod, trunc, Qdiv, Qmult, Qminus, Qplus, Qopp, Qinv, Qeq.
  simpl. rewrite !Z.mul_0_r. simpl. reflexivity.
Qed.

(** ** The frame callbacks, unfolded *)

Lemma Early_Landscape_inv t w w' :
  Early.Landscape_useFrame t w = Ok w' ->
  exists m1 m2,
    Early.terrain1Ref w = Some m1 /\ Early.terrain2Ref w = Some m2 /\
    w' = Early.set_terrain2
           (Early.set_terrain1 w (set_position_z m1 (fmod (t * 0.1) 2)))
           (set_position_z m2 (fmod (t * 0.1) 2 - 2)).
Proof.
  unfold Early.Landscape_useFrame. rewrite !rem_two.
  destruct w as [[m1|] [m2|] r c cam]; simpl; intros H; try discriminate.
  injection H as <-. eauto.
Qed.


Lemma Late_Landscape_inv t w w' :
  Late.Landscape_useFrame t w = Ok w' ->
  exists m1 m2 m3,
    Late.terrain1Ref w = Some m1 /\ Late.terrain2Ref w = Some m2 /\
    Late.terrain3Ref w = Some m3 /\
    w' = Late.set_terrain3
           (Late.set_terrain2
              (Late.set_terrain1 w (set_position_z m1 (fmod (t * 0) 2)))
              (set_position_z m2 (fmod (t * 0) 2 - 2)))
           (set_position_z m3 (fmod (t * 0) 2 + 2)).
Proof.
  unfold Late.Landscape_useFrame. rewrite !rem_two.
  destruct w as [[m1|] [m2|] [m3|] r c cam]; simpl; intros H; try discriminate.
  injection H as <-. eauto 7.
Qed.

Lemma Late_Landscape_total t w :
  Late.attached w = true -> exists w', Late.Landscape_useFrame t w = Ok w'.
Proof.
  unfold Late.attached, Late.Landscape_useFrame. rewrite !rem_two.
  destruct w as [[m1|] [m2|] [m3|] r c cam]; simpl; intros H; try discriminate. eauto.
Qed.


Lemma Late_depth_after t w w' i :
  Late.Landscape_useFrame t w = Ok w' ->
  Late.depth i w' =
  Some (match i with
        | Late.terrain1 => fmod (t * 0) 2
        | Late.terrain2 => fmod (t * 0) 2 - 2
        | Late.terrain3 => fmod (t * 0) 2 + 2
        end).
Proof.
  intros H. destruct (Late_Landscape_inv _ _ _ H) as (m1 & m2 & m3 & _ & _ & _ & ->).
  destruct i; reflexivity.
Qed.

Lemma Early_Effects_inv w w' :
  Early.Effects_useFrame w = Ok w' ->
  is_Some (Early.composerRef w) /\
  ((Early.rgbShiftRef w = None /\ w' = w) \/
   (exists pass, Early.rgbShiftRef w = Some pass /\
      is_Some (uniforms pass !! "amount"%string) /\
      w' = Early.set_rgbShift w
             {| uniforms := <["amount"%string := {| value := UNumber 0.0012 |}]>
                              (uniforms pass) |})).
Proof.
  unfold Early.Effects_useFrame, set_uniform_value.
  destruct w as [m1 m2 [pass|] [c|] cam]; simpl;
    try destruct (uniforms pass !! "amount"%string) as [u|] eqn:E; simpl;
    intros H; try discriminate; injection H as <-; split; eauto.
  all: right; exists pass; rewrite E; eauto.
Qed.

Lemma Late_Effects_inv w w' :
  Late.Effects_useFrame w = Ok w' ->
  is_Some (Late.composerRef w) /\
  ((Late.rgbShiftRef w = None /\ w' = w) \/
   (exists pass, Late.rgbShiftRef w = Some pass /\
      is_Some (uniforms pass !! "amount"%string) /\
      w' = Late.set_rgbShift w
             {| uniforms := <["amount"%string := {| value := UNumber 0.0012 |}]>
                              (uniforms pass) |})).
Proof.
  unfold Late.Effects_useFrame, set_uniform_value.
  destruct w as [m1 m2 m3 [pass|] [c|] cam]; simpl;
    try destruct (uniforms pass !! "amount"%string) as [u|] eqn:E; simpl;
    intros H; try discriminate; injection H as <-; split; eauto.
  all: right; exists pass; rewrite E; eauto.
Qed.

(** ** One frame on a mounted canvas *)

Lemma Early_frame_ok t w :
  Early_world_ok w ->
  exists w', Early.frame t w = Ok w' /\ Early_world_ok w' /\
    Early.camera w' = Early.camera w /\ Early.amount w' = Some 0.0012.
Proof.
  intros (Ht & (pass & Hp & u & Hu) & Hc).
  destruct (Ht Early.terrain1) as (m1 & H1 & Hx1 & Hy1 & Hr1).
  destruct (Ht Early.terrain2) as (m2 & H2 & Hx2 & Hy2 & Hr2).
  destruct w as [r1 r2 rp rc cam]; simpl in *; subst.
  unfold Early.frame, Early.Landscape_useFrame. rewrite !rem_two. simpl.
  unfold Early.Effects_useFrame, set_uniform_value. simpl. rewrite Hu. simpl.
  eexists; split; [reflexivity|]. repeat split; simpl.
  - intros [|]; simpl; eexists; (split; [reflexivity|]); simpl; auto.
  - eexists; split; [reflexivity|]. simpl. rewrite lookup_insert_eq. eauto.
  - unfold Early.amount, uniform_number. simpl. rewrite lookup_insert_eq. reflexivity.
Qed.

Lemma Late_frame_ok t w :
  Late_world_ok w ->
  exists w', Late.frame t w = Ok w' /\ Late_world_ok w' /\
    Late.camera w' = Late.camera w /\ Late.amount w' = Some 0.0012.
Proof.
  intros (Ht & (pass & Hp & u & Hu) & Hc).
  destruct (Ht Late.terrain1) as (m1 & H1 & Hx1 & Hy1 & Hr1).
  destruct (Ht Late.terrain2) as (m2 & H2 & Hx2 & Hy2 & Hr2).
  destruct (Ht Late.terrain3) as (m3 & H3 & Hx3 & Hy3 & Hr3).
  destruct w as [r1 r2 r3 rp rc cam]; simpl in *; subst.
  unfold Late.frame, Late.Landscape_useFrame. rewrite !rem_two. simpl.
  unfold Late.Effects_useFrame, set_uniform_value. simpl. rewrite Hu. simpl.
  eexists; split; [reflexivity|]. repeat split; simpl.
  - intros [| |]; simpl; eexists; (split; [reflexivity|]); simpl; auto.
  - eexists; split; [reflexivity|]. simpl. rewrite lookup_insert_eq. eauto.
  - unfold Late.amount, uniform_number. simpl. rewrite lookup_insert_eq. reflexivity.
Qed.

(** The effect of [Foo] touches the camera alone. *)
Lemma Late_Foo_world_ok s w : Late_world_ok w -> Late_world_ok (Late.Foo_useEffect s w).
Proof.
  intros (Ht & Hp & Hc). split; [|split]; [|exact Hp|exact Hc].
  intros i. destruct (Ht i) as (m & Hm & H). exists m. split; [|exact H].
  destruct i; exact Hm.
Qed.

(** ** The canvas as committed *)

Section Mounting.

Variable RGBShiftShader : Shader.
Hypothesis declares_amount : is_Some (shader_uniforms RGBShiftShader !! "amount"%string).

Lemma Early_Canvas_ok : Early_world_ok (Early.Canvas RGBShiftShader).
Proof.
  repeat split.
  - intros [|]; simpl; eexists; (split; [reflexivity|]); simpl; auto.
  - eexists; split; [reflexivity|]. exact declares_amount.
Qed.

Lemma Late_Canvas_ok : Late_world_ok (Late.Canvas RGBShiftShader).
Proof.
  repeat split.
  - intros [| |]; simpl; eexists; (split; [reflexivity|]); simpl; auto.
  - eexists; split; [reflexivity|]. exact declares_amount.
Qed.

(** *** Steps of the earlier revision *)

Lemma Early_step_ok p e :
  Early_page_ok p ->
  exists p', Early.step RGBShiftShader p e = Ok p' /\ Early_page_ok p' /\
    (Early.mounted p = true ->
       Early.mounted p' = true /\
       Early.ticks p' = (Early.ticks p + Early.count_frames [e])%nat).
Proof.
  unfold Early_page_ok. destruct p as [[|] c n]; simpl.
  - intros (w & -> & Hw & Ha). destruct e as [|t]; simpl.
    + eexists; split; [reflexivity|]. simpl. split; [eauto | split; [reflexivity | lia]].
    + destruct (Early_frame_ok t w Hw) as (w' & -> & Hw' & _ & Ha'). simpl.
      eexists; split; [reflexivity|]. simpl. split; [eauto | split; [reflexivity | lia]].
  - intros [-> ->]. destruct e as [|t]; simpl.
    + eexists; split; [reflexivity|]. simpl. split; [|intros; discriminate].
      exists (Early.Canvas RGBShiftShader). split; [reflexivity|].
      split; [apply Early_Canvas_ok | lia].
    + eexists; split; [reflexivity|]. simpl. split; [auto | intros; discriminate].
Qed.

Lemma Early_run_ok es : forall p,
  Early_page_ok p ->
  exists p', Early.run RGBShiftShader p es = Ok p' /\ Early_page_ok p' /\
    (Early.mounted p = true ->
       Early.mounted p' = true /\
       Early.ticks p' = (Early.ticks p + Early.count_frames es)%nat).
Proof.
  induction es as [|e es IH]; intros p Hp; simpl.
  - exists p. split; [reflexivity|]. split; [exact Hp|]. intros; split; [assumption | lia].
  - destruct (Early_step_ok p e Hp) as (p1 & -> & Hp1 & Hm1). simpl.
    destruct (IH p1 Hp1) as (p2 & -> & Hp2 & Hm2).
    exists p2. split; [reflexivity|]. split; [exact Hp2|].
    intros Hm. destruct (Hm1 Hm) as [Hm1' Ht1]. destruct (Hm2 Hm1') as [Hm2' Ht2].
    split; [exact Hm2'|]. rewrite Ht2, Ht1. simpl. destruct e; simpl; lia.
Qed.

(** *** Steps of the later revision *)

Lemma Late_step_ok p e :
  Late_page_ok p ->
  exists p', Late.step RGBShiftShader p e = Ok p' /\ Late_page_ok p' /\
    (Late.mounted p = true ->
       Late.mounted p' = true /\
       Late.ticks p' = (Late.ticks p + Late.count_frames [e])%nat).
Proof.
  unfold Late_page_ok. destruct p as [[|] s c n]; simpl.
  - intros (w & -> & Hw & Hz & Ha). destruct e as [|t|s']; simpl.
    + eexists; split; [reflexivity|]. simpl.
      split; [eauto 6 | split; [reflexivity | lia]].
    + destruct (Late_frame_ok t w Hw) as (w' & -> & Hw' & Hc & Ha'). simpl.
      eexists; split; [reflexivity|]. simpl.
      split; [|split; [reflexivity | lia]].
      exists w'. rewrite Hc. auto.
    + destruct (Qeq_bool s' s) eqn:E.
      * eexists; split; [reflexivity|]. simpl.
        split; [eauto 6 | split; [reflexivity | lia]].
      * eexists; split; [reflexivity|]. simpl.
        split; [|split; [reflexivity | lia]].
        exists (Late.Foo_useEffect s' w). split; [reflexivity|].
        split; [apply Late_Foo_world_ok, Hw|]. split; [reflexivity | exact Ha].
  - intros [-> ->]. destruct e as [|t|s']; simpl.
    + eexists; split; [reflexivity|]. simpl. split; [|intros; discriminate].
      eexists. split; [reflexivity|].
      split; [apply Late_Foo_world_ok, Late_Canvas_ok|].
      split; [reflexivity | lia].
    + eexists; split; [reflexivity|]. simpl. split; [auto | intros; discriminate].
    + destruct (Qeq_bool s' s); (eexists; split; [reflexivity|]); simpl;
        (split; [auto | intros; discriminate]).
Qed.

Lemma Late_run_ok es : forall p,
  Late_page_ok p ->
  exists p', Late.run RGBShiftShader p es = Ok p' /\ Late_page_ok p' /\
    (Late.mounted p = true ->
       Late.mounted p' = true /\
       Late.ticks p' = (Late.ticks p + Late.count_frames es)%nat).
Proof.
  induction es as [|e es IH]; intros p Hp; simpl.
  - exists p. split; [reflexivity|]. split; [exact Hp|]. intros; split; [assumption | lia].
  - destruct (Late_step_ok p e Hp) as (p1 & -> & Hp1 & Hm1). simpl.
    destruct (IH p1 Hp1) as (p2 & -> & Hp2 & Hm2).
    exists p2. split; [reflexivity|]. split; [exact Hp2|].
    intros Hm. destruct (Hm1 Hm) as [Hm1' Ht1]. destruct (Hm2 Hm1') as [Hm2' Ht2].
    split; [exact Hm2'|]. rewrite Ht2, Ht1. simpl. destruct e; simpl; lia.
Qed.

End Mounting.

(** ** The initial pages *)

Lemma Early_init_ok : Early_page_ok Early.init.
Proof. split; reflexivity. Qed.

Lemma Late_init_ok : Late_page_ok Late.init.
Proof. split; reflexivity. Qed.

(** ** The callbacks on concrete frames *)

(** The remainder carries the sign of the dividend, the modulo of the
    specification does not. *)
Example fmod_negative : fmod (-3.5) 2 == -1.5 /\ Qmod (-3.5) 2 == 0.5.
Proof. split; reflexivity. Qed.

Example rem_by_zero : rem 3.5 0 = Throw NotANumber.
Proof. reflexivity. Qed.

(** The later revision stands still. *)
Example Late_depths_at_37 :
  exists w', Late.Landscape_useFrame 37 (Late.Canvas RGBShiftShader_stdlib) = Ok w' /\
    Late.depth Late.terrain1 w' = Some 0 /\
    Late.depth Late.terrain2 w' = Some (-2) /\
    Late.depth Late.terrain3 w' = Some 2.
Proof. eexists. split; [reflexivity|]. repeat split; reflexivity. Qed.

(** A callback whose ref was never attached throws. *)
Example Early_detached_throws :
  Early.Landscape_useFrame 1
    {| Early.terrain1Ref := Some (Early.Terrain 0); Early.terrain2Ref := None;
       Early.rgbShiftRef := None; Early.composerRef := Some Composer;
       Early.camera := Early.Terrain 0 |} = Throw TypeError.
Proof. reflexivity. Qed.

(** * The page on doubles: what the callbacks and the events do *)

(** ** Doubles *)

#[local] Set Warnings "-inexact-float".

(** The literals above are the doubles that the decimal literals of the
    page denote. *)
Example literals_are_nearest_doubles :
  (Prim2SF 0.1 = B64.lit_0_1 /\ Prim2SF 2 = B64.two /\ Prim2SF (-2) = B64.minus_two /\
   Prim2SF 0.0012 = B64.lit_0_0012 /\ Prim2SF 0.003 = B64.lit_0_003 /\
   Prim2SF 2.4 = B64.lit_2_4 /\ Prim2SF 0.11 = B64.lit_0_11 /\
   Prim2SF 1.1 = B64.lit_1_1 /\ Prim2SF 0.5 = B64.lit_0_5 /\
   Prim2SF 0.005 = B64.lit_0_005 /\ Prim2SF 1 = B64.one /\
   Prim2SF 0x1.921fb54442d18p+1 = B64.Math_PI)%float.
Proof. vm_compute. repeat split. Qed.

Lemma same_refl (a : spec_float) : B64.same a a.
Proof. left. reflexivity. Qed.

(** Adding the literal 0 gives the same number (it turns -0 into 0). *)
Lemma add_zero_same (a : spec_float) : B64.same a (B64.add a B64.zero).
Proof.
  destruct a as [[|]| | |]; try (left; reflexivity). right. reflexivity.
Qed.

(** Subtracting 2 is adding -2. *)
Lemma sub_two_add (a : spec_float) : B64.sub a B64.two = B64.add a B64.minus_two.
Proof. destruct a as [[|]|[|]| |s m e]; reflexivity. Qed.

(** A finite number times the literal 0 is a zero, which has no remainder. *)
Lemma rem_times_zero (t : spec_float) :
  B64.finite t = true ->
  exists s, B64.rem (B64.mul t B64.zero) B64.two = S754_zero s.
Proof.
  destruct t as [s|s| |s m e]; try discriminate; intros _; eexists; reflexivity.
Qed.

Lemma Object_is_eq (a b : spec_float) : B64.Object_is a b = true -> a = b.
Proof.
  destruct a as [s1|s1| |s1 m1 e1], b as [s2|s2| |s2 m2 e2]; simpl; try discriminate;
    try reflexivity.
  - intros H. apply Bool.eqb_prop in H. congruence.
  - intros H. apply Bool.eqb_prop in H. congruence.
  - intros H. apply andb_prop in H as [H He]. apply andb_prop in H as [Hs Hm].
    apply Bool.eqb_prop in Hs. apply Pos.eqb_eq in Hm. apply Z.eqb_eq in He. congruence.
Qed.

(** ** What [Landscape] writes *)

Lemma Early64_Landscape_attached t w :
  Early64.attached w = true ->
  exists m1 m2,
    Early64.terrain1Ref w = Some m1 /\ Early64.terrain2Ref w = Some m2 /\
    Early64.Landscape_useFrame t w =
    Three64.Done
      (Early64.set_terrain2
         (Early64.set_terrain1 w
            (Three64.set_position_z m1 (B64.rem (B64.mul t B64.lit_0_1) B64.two)))
         (Three64.set_position_z m2
            (B64.sub (B64.rem (B64.mul t B64.lit_0_1) B64.two) B64.two))).
Proof.
  unfold Early64.attached, Early64.Landscape_useFrame.
  destruct w as [[m1|] [m2|] r c cam]; simpl; intros H; try discriminate. eauto.
Qed.

Lemma Late64_Landscape_attached t w :
  Late64.attached w = true ->
  exists m1 m2 m3,
    Late64.terrain1Ref w = Some m1 /\ Late64.terrain2Ref w = Some m2 /\
    Late64.terrain3Ref w = Some m3 /\
    Late64.Landscape_useFrame t w =
    Three64.Done
      (Late64.set_terrain3
         (Late64.set_terrain2
            (Late64.set_terrain1 w
               (Three64.set_position_z m1 (B64.rem (B64.mul t B64.zero) B64.two)))
            (Three64.set_position_z m2
               (B64.sub (B64.rem (B64.mul t B64.zero) B64.two) B64.two)))
         (Three64.set_position_z m3
            (B64.add (B64.rem (B64.mul t B64.zero) B64.two) B64.two))).
Proof.
  unfold Late64.attached, Late64.Landscape_useFrame.
  destruct w as [[m1|] [m2|] [m3|] r c cam]; simpl; intros H; try discriminate. eauto 7.
Qed.

(** The sign of a rounded number is the sign it is given. *)
Lemma binary_round_aux_sign s m e l :
  binary_round_aux B64.prec B64.emax s m e l = S754_nan \/
  (exists s', binary_round_aux B64.prec B64.emax s m e l = S754_zero s') \/
  binary_round_aux B64.prec B64.emax s m e l = S754_infinity s \/
  exists m' e', binary_round_aux B64.prec B64.emax s m e l = S754_finite s m' e'.
Proof.
  unfold binary_round_aux.
  destruct (shr_fexp B64.prec B64.emax m e l) as [mrs1 e1].
  destruct (shr_fexp B64.prec B64.emax _ e1 loc_Exact) as [mrs2 e2].
  destruct (shr_m mrs2) as [|p|p]; [right; left; eauto | | left; reflexivity].
  destruct (e2 <=? B64.emax - B64.prec)%Z; right; right; [right | left]; eauto.
Qed.

(** A product of two numbers that are not negative is not negative. *)
Lemma mul_not_negative (a b : spec_float) :
  B64.negative a = false -> B64.negative b = false -> B64.negative (B64.mul a b) = false.
Proof.
  destruct a as [sa|[|]| |[|] ma ea]; try discriminate;
    destruct b as [sb|[|]| |[|] mb eb]; try discriminate; intros _ _; try reflexivity.
  unfold B64.mul, SFmul. simpl xorb.
  destruct (binary_round_aux_sign false (Z.pos (ma * mb)) (ea + eb) loc_Exact)
    as [H | [[s' H] | [H | (m' & e' & H)]]]; rewrite H; reflexivity.
Qed.

(** On a dividend that is not negative, [%] by a positive double is the
    modulo of the specification, up to the sign of a zero. *)
Lemma rem_modulo (n : spec_float) (md : positive) (ed : Z) :
  B64.negative n = false ->
  B64.rem n (S754_finite false md ed) = B64.modulo n (S754_finite false md ed) \/
  exists s, B64.rem n (S754_finite false md ed) = S754_zero s /\
            B64.modulo n (S754_finite false md ed) = S754_zero false.
Proof.
  destruct n as [s|[|]| |[|] mn en]; try discriminate; intros _.
  - right. exists s. split; reflexivity.
  - left. reflexivity.
  - left. reflexivity.
  - left. unfold B64.rem, B64.modulo. cbv zeta. unfold cond_Zopp at 2.
    rewrite Z.rem_mod_nonneg.
    + destruct (_ mod _)%Z; reflexivity.
    + apply Z.mul_nonneg_nonneg; [lia|]. apply Z.pow_nonneg. lia.
    + apply Z.mul_pos_pos; [lia|]. apply Z.pow_pos_nonneg; lia.
Qed.

(** The depths of the three staggers, on a remainder and on a modulo that
    agree up to the sign of a zero. *)
Lemma depths_same (r m : spec_float) :
  r = m \/ (exists s, r = S754_zero s /\ m = S754_zero false) ->
  B64.same r (B64.add m B64.zero) /\
  B64.same (B64.sub r B64.two) (B64.add m B64.minus_two) /\
  B64.same (B64.add r B64.two) (B64.add m B64.two).
Proof.
  intros [-> | (s & -> & ->)].
  - split; [apply add_zero_same|]. split; left; [apply sub_two_add | reflexivity].
  - destruct s; (split; [|split]); first [left; reflexivity | right; reflexivity].
Qed.

(** The remainder carries the sign of the dividend, the modulo of the
    specification does not: [-3.5 % 2] is -1.5, and -3.5 modulo 2 is 0.5. *)
Example rem_negative :
  B64.rem (Prim2SF (-3.5)) B64.two = Prim2SF (-1.5) /\
  B64.modulo (Prim2SF (-3.5)) B64.two = Prim2SF 0.5.
Proof. split; reflexivity. Qed.

(** ** Uniforms *)

Lemma assign_uniform_lookup pass name v pass' name' :
  Three64.assign_uniform pass name v = Some pass' ->
  name' <> name ->
  Three64.uniforms pass' !! name' = Three64.uniforms pass !! name'.
Proof.
  unfold Three64.assign_uniform. intros H Hn.
  destruct (Three64.uniforms pass !! name); [|discriminate].
  injection H as <-. simpl. apply lookup_insert_ne. congruence.
Qed.

Lemma assign_uniform_value pass name v pass' :
  Three64.assign_uniform pass name v = Some pass' ->
  Three64.uniform_value pass' name = Some v.
Proof.
  unfold Three64.assign_uniform, Three64.uniform_value. intros H.
  destruct (Three64.uniforms pass !! name); [|discriminate].
  injection H as <-. simpl. rewrite lookup_insert_eq. reflexivity.
Qed.

Lemma assign_uniform_declared pass name v :
  is_Some (Three64.uniforms pass !! name) ->
  exists pass', Three64.assign_uniform pass name v = Some pass'.
Proof.
  unfold Three64.assign_uniform. intros [u ->]. eexists. reflexivity.
Qed.

Lemma assign_uniform_names pass name v pass' name' :
  Three64.assign_uniform pass name v = Some pass' ->
  is_Some (Three64.uniforms pass' !! name') <-> is_Some (Three64.uniforms pass !! name').
Proof.
  unfold Three64.assign_uniform. intros H.
  destruct (Three64.uniforms pass !! name) as [u|] eqn:E; [|discriminate].
  injection H as <-. simpl.
  destruct (decide (name = name')) as [<-|Hn].
  - rewrite lookup_insert_eq, E. split; eauto.
  - rewrite lookup_insert_ne by exact Hn. reflexivity.
Qed.

Lemma fill_texture_slot_lookup pass name :
  name <> "tDiffuse"%string ->
  Three64.uniforms (Three64.fill_texture_slot pass) !! name = Three64.uniforms pass !! name.
Proof.
  intros Hn. unfold Three64.fill_texture_slot.
  destruct (Three64.assign_uniform pass "tDiffuse" Three64.UTexture) as [pass'|] eqn:E;
    [|reflexivity].
  apply (assign_uniform_lookup _ _ _ _ _ E Hn).
Qed.

Lemma fill_texture_slot_names pass name :
  is_Some (Three64.uniforms (Three64.fill_texture_slot pass) !! name)
  <-> is_Some (Three64.uniforms pass !! name).
Proof.
  unfold Three64.fill_texture_slot.
  destruct (Three64.assign_uniform pass "tDiffuse" Three64.UTexture) as [pass'|] eqn:E;
    [|reflexivity].
  apply (assign_uniform_names _ _ _ _ _ E).
Qed.

Lemma fill_texture_slot_value pass name :
  name <> "tDiffuse"%string ->
  Three64.uniform_value (Three64.fill_texture_slot pass) name
  = Three64.uniform_value pass name.
Proof.
  intros Hn. unfold Three64.uniform_value.
  rewrite (fill_texture_slot_lookup _ _ Hn). reflexivity.
Qed.

(** ** The callback of [Effects], unfolded *)

Lemma Early64_Effects_ok w :
  Early64_effects_ok w ->
  exists pass pass',
    Early64.rgbShiftRef w = Some pass /\
    Three64.assign_uniform pass "amount" (Three64.UNumber B64.lit_0_0012) = Some pass' /\
    Early64.Effects_useFrame w = Three64.Done (Early64.render (Early64.set_rgbShift w pass')).
Proof.
  intros [(pass & Hp & Ha) [c Hc]].
  destruct (assign_uniform_declared pass "amount" (Three64.UNumber B64.lit_0_0012) Ha)
    as [pass' Hpass'].
  exists pass, pass'. split; [exact Hp|]. split; [exact Hpass'|].
  unfold Early64.Effects_useFrame. rewrite Hp, Hpass'. simpl. rewrite Hc. reflexivity.
Qed.

Lemma Late64_Effects_ok w :
  Late64_effects_ok w ->
  exists pass pass',
    Late64.rgbShiftRef w = Some pass /\
    Three64.assign_uniform pass "amount" (Three64.UNumber B64.lit_0_0012) = Some pass' /\
    Late64.Effects_useFrame w = Three64.Done (Late64.render (Late64.set_rgbShift w pass')).
Proof.
  intros [(pass & Hp & Ha) [c Hc]].
  destruct (assign_uniform_declared pass "amount" (Three64.UNumber B64.lit_0_0012) Ha)
    as [pass' Hpass'].
  exists pass, pass'. split; [exact Hp|]. split; [exact Hpass'|].
  unfold Late64.Effects_useFrame. rewrite Hp, Hpass'. simpl. rewrite Hc. reflexivity.
Qed.

(** What the callback of [Effects] keeps, whether it returns or throws. *)
Lemma Early64_Effects_keeps w :
  let w' := Three64.world_of (Early64.Effects_useFrame w) in
  (forall i, Early64.terrainRef i w' = Early64.terrainRef i w) /\
  Early64.camera w' = Early64.camera w /\
  (forall pass, Early64.rgbShiftRef w = Some pass ->
     exists pass', Early64.rgbShiftRef w' = Some pass' /\
       (forall name, is_Some (Three64.uniforms pass' !! name)
                     <-> is_Some (Three64.uniforms pass !! name)) /\
       (forall name, name <> "amount"%string -> name <> "tDiffuse"%string ->
          Three64.uniforms pass' !! name = Three64.uniforms pass !! name)).
Proof.
  unfold Early64.Effects_useFrame.
  destruct w as [t1 t2 [pass|] [c|] cam]; simpl.
  - destruct (Three64.assign_uniform pass "amount" (Three64.UNumber B64.lit_0_0012))
      as [pass'|] eqn:E; simpl.
    + split; [intros []; reflexivity|]. split; [reflexivity|].
      intros pass0 H0. injection H0 as <-. eexists. split; [reflexivity|]. split.
      * intros name. rewrite fill_texture_slot_names. apply (assign_uniform_names _ _ _ _ _ E).
      * intros name Ha Ht. rewrite (fill_texture_slot_lookup _ _ Ht).
        apply (assign_uniform_lookup _ _ _ _ _ E Ha).
    + split; [intros []; reflexivity|]. split; [reflexivity|].
      intros pass0 H0. exists pass0. split; [exact H0|]. split; reflexivity.
  - destruct (Three64.assign_uniform pass "amount" (Three64.UNumber B64.lit_0_0012))
      as [pass'|] eqn:E; simpl.
    + split; [intros []; reflexivity|]. split; [reflexivity|].
      intros pass0 H0. injection H0 as <-. eexists. split; [reflexivity|]. split.
      * intros name. apply (assign_uniform_names _ _ _ _ _ E).
      * intros name Ha Ht. apply (assign_uniform_lookup _ _ _ _ _ E Ha).
    + split; [intros []; reflexivity|]. split; [reflexivity|].
      intros pass0 H0. exists pass0. split; [exact H0|]. split; reflexivity.
  - split; [intros []; reflexivity|]. split; [reflexivity|]. intros pass0 H0. discriminate H0.
  - split; [intros []; reflexivity|]. split; [reflexivity|]. intros pass0 H0. discriminate H0.
Qed.

Lemma Late64_Effects_keeps w :
  let w' := Three64.world_of (Late64.Effects_useFrame w) in
  (forall i, Late64.terrainRef i w' = Late64.terrainRef i w) /\
  Late64.camera w' = Late64.camera w /\
  (forall pass, Late64.rgbShiftRef w = Some pass ->
     exists pass', Late64.rgbShiftRef w' = Some pass' /\
       (forall name, is_Some (Three64.uniforms pass' !! name)
                     <-> is_Some (Three64.uniforms pass !! name)) /\
       (forall name, name <> "amount"%string -> name <> "tDiffuse"%string ->
          Three64.uniforms pass' !! name = Three64.uniforms pass !! name)).
Proof.
  unfold Late64.Effects_useFrame.
  destruct w as [t1 t2 t3 [pass|] [c|] cam]; simpl.
  - destruct (Three64.assign_uniform pass "amount" (Three64.UNumber B64.lit_0_0012))
      as [pass'|] eqn:E; simpl.
    + split; [intros []; reflexivity|]. split; [reflexivity|].
      intros pass0 H0. injection H0 as <-. eexists. split; [reflexivity|]. split.
      * intros name. rewrite fill_texture_slot_names. apply (assign_uniform_names _ _ _ _ _ E).
      * intros name Ha Ht. rewrite (fill_texture_slot_lookup _ _ Ht).
        apply (assign_uniform_lookup _ _ _ _ _ E Ha).
    + split; [intros []; reflexivity|]. split; [reflexivity|].
      intros pass0 H0. exists pass0. split; [exact H0|]. split; reflexivity.
  - destruct (Three64.assign_uniform pass "amount" (Three64.UNumber B64.lit_0_0012))
      as [pass'|] eqn:E; simpl.
    + split; [intros []; reflexivity|]. split; [reflexivity|].
      intros pass0 H0. injection H0 as <-. eexists. split; [reflexivity|]. split.
      * intros name. apply (assign_uniform_names _ _ _ _ _ E).
      * intros name Ha Ht. apply (assign_uniform_lookup _ _ _ _ _ E Ha).
    + split; [intros []; reflexivity|]. split; [reflexivity|].
      intros pass0 H0. exists pass0. split; [exact H0|]. split; reflexivity.
  - split; [intros []; reflexivity|]. split; [reflexivity|]. intros pass0 H0. discriminate H0.
  - split; [intros []; reflexivity|]. split; [reflexivity|]. intros pass0 H0. discriminate H0.
Qed.

(** What the callback of [Landscape] keeps, whether it returns or throws. *)
Lemma Early64_Landscape_keeps t w :
  let w' := Three64.world_of (Early64.Landscape_useFrame t w) in
  (forall i m, Early64.terrainRef i w = Some m ->
     exists m', Early64.terrainRef i w' = Some m' /\
       Three64.x (Three64.position m') = Three64.x (Three64.position m) /\
       Three64.y (Three64.position m') = Three64.y (Three64.position m) /\
       Three64.rotation m' = Three64.rotation m) /\
  Early64.rgbShiftRef w' = Early64.rgbShiftRef w /\
  Early64.composerRef w' = Early64.composerRef w /\
  Early64.camera w' = Early64.camera w.
Proof.
  unfold Early64.Landscape_useFrame.
  destruct w as [[m1|] [m2|] pass c cam]; simpl;
    (split; [|split; [reflexivity|split; reflexivity]]);
    intros [] m H; simpl in H; try discriminate H; injection H as <-;
    eexists; (split; [reflexivity|]); (split; [reflexivity|]); split; reflexivity.
Qed.

Lemma Late64_Landscape_keeps t w :
  let w' := Three64.world_of (Late64.Landscape_useFrame t w) in
  (forall i m, Late64.terrainRef i w = Some m ->
     exists m', Late64.terrainRef i w' = Some m' /\
       Three64.x (Three64.position m') = Three64.x (Three64.position m) /\
       Three64.y (Three64.position m') = Three64.y (Three64.position m) /\
       Three64.rotation m' = Three64.rotation m) /\
  Late64.rgbShiftRef w' = Late64.rgbShiftRef w /\
  Late64.composerRef w' = Late64.composerRef w /\
  Late64.camera w' = Late64.camera w.
Proof.
  unfold Late64.Landscape_useFrame.
  destruct w as [[m1|] [m2|] [m3|] pass c cam]; simpl;
    (split; [|split; [reflexivity|split; reflexivity]]);
    intros [] m H; simpl in H; try discriminate H; injection H as <-;
    eexists; (split; [reflexivity|]); (split; [reflexivity|]); split; reflexivity.
Qed.

(** ** One frame on a committed canvas *)

Lemma Early64_frame_writes t w :
  Early64.attached w = true -> Early64_effects_ok w ->
  exists w', Early64.frame t w = Three64.Done w' /\
    Early64.depth Early64.terrain1 w' = Some (B64.rem (B64.mul t B64.lit_0_1) B64.two) /\
    Early64.depth Early64.terrain2 w'
      = Some (B64.sub (B64.rem (B64.mul t B64.lit_0_1) B64.two) B64.two) /\
    (exists pass, Early64.rgbShiftRef w' = Some pass /\
       Three64.uniform_value pass "amount" = Some (Three64.UNumber B64.lit_0_0012)) /\
    Early64_drawn w' /\
    Early64.camera w' = Early64.camera w /\
    Early64.attached w' = true /\ Early64_effects_ok w'.
Proof.
  intros Hw He. unfold Early64.frame.
  destruct (Early64_Landscape_attached t w Hw) as (m1 & m2 & _ & _ & ->). simpl.
  match goal with |- context [Early64.Effects_useFrame ?w1] => set (w1' := w1) end.
  assert (He1 : Early64_effects_ok w1') by exact He.
  destruct (Early64_Effects_ok w1' He1) as (pass & pass' & Hp & Hpass' & ->).
  assert (Hv : Three64.uniform_value (Three64.fill_texture_slot pass') "amount"
               = Some (Three64.UNumber B64.lit_0_0012)).
  { rewrite fill_texture_slot_value by discriminate.
    apply (assign_uniform_value _ _ _ _ Hpass'). }
  eexists. split; [reflexivity|]. split; [reflexivity|]. split; [reflexivity|].
  split; [eexists; split; [reflexivity | exact Hv]|].
  split; [reflexivity|]. split; [reflexivity|]. split; [reflexivity|].
  split; [|simpl; eauto].
  eexists. split; [reflexivity|].
  unfold Three64.uniform_value in Hv.
  destruct (Three64.uniforms (Three64.fill_texture_slot pass') !! "amount"%string);
    [eauto | discriminate].
Qed.

Lemma Late64_frame_writes t w :
  Late64.attached w = true -> Late64_effects_ok w ->
  exists w', Late64.frame t w = Three64.Done w' /\
    Late64.depth Late64.terrain1 w' = Some (B64.rem (B64.mul t B64.zero) B64.two) /\
    Late64.depth Late64.terrain2 w'
      = Some (B64.sub (B64.rem (B64.mul t B64.zero) B64.two) B64.two) /\
    Late64.depth Late64.terrain3 w'
      = Some (B64.add (B64.rem (B64.mul t B64.zero) B64.two) B64.two) /\
    (exists pass, Late64.rgbShiftRef w' = Some pass /\
       Three64.uniform_value pass "amount" = Some (Three64.UNumber B64.lit_0_0012)) /\
    Late64_drawn w' /\
    Late64.camera w' = Late64.camera w /\
    Late64.attached w' = true /\ Late64_effects_ok w'.
Proof.
  intros Hw He. unfold Late64.frame.
  destruct (Late64_Landscape_attached t w Hw) as (m1 & m2 & m3 & _ & _ & _ & ->). simpl.
  match goal with |- context [Late64.Effects_useFrame ?w1] => set (w1' := w1) end.
  assert (He1 : Late64_effects_ok w1') by exact He.
  destruct (Late64_Effects_ok w1' He1) as (pass & pass' & Hp & Hpass' & ->).
  assert (Hv : Three64.uniform_value (Three64.fill_texture_slot pass') "amount"
               = Some (Three64.UNumber B64.lit_0_0012)).
  { rewrite fill_texture_slot_value by discriminate.
    apply (assign_uniform_value _ _ _ _ Hpass'). }
  eexists. split; [reflexivity|]. split; [reflexivity|]. split; [reflexivity|].
  split; [reflexivity|].
  split; [eexists; split; [reflexivity | exact Hv]|].
  split; [reflexivity|]. split; [reflexivity|]. split; [reflexivity|].
  split; [|simpl; eauto].
  eexists. split; [reflexivity|].
  unfold Three64.uniform_value in Hv.
  destruct (Three64.uniforms (Three64.fill_texture_slot pass') !! "amount"%string);
    [eauto | discriminate].
Qed.

(** A frame keeps the x, the y and the rotation of the terrains, whether
    its callbacks return or throw. *)
Lemma Early64_frame_terrains_ok t w :
  Early64_terrains_ok w -> Early64_terrains_ok (Three64.world_of (Early64.frame t w)).
Proof.
  intros Hw i. destruct (Hw i) as (m & Hm & Hx & Hy & Hr).
  destruct (Early64_Landscape_keeps t w) as (HL & _).
  destruct (HL i m Hm) as (m' & Hm' & Hx' & Hy' & Hr').
  exists m'. split; [|split; [congruence | split; congruence]].
  unfold Early64.frame.
  destruct (Early64.Landscape_useFrame t w) as [w1|e w1]; simpl in *; [|exact Hm'].
  destruct (Early64_Effects_keeps w1) as (HE & _). rewrite HE. exact Hm'.
Qed.

Lemma Late64_frame_terrains_ok t w :
  Late64_terrains_ok w -> Late64_terrains_ok (Three64.world_of (Late64.frame t w)).
Proof.
  intros Hw i. destruct (Hw i) as (m & Hm & Hx & Hy & Hr).
  destruct (Late64_Landscape_keeps t w) as (HL & _).
  destruct (HL i m Hm) as (m' & Hm' & Hx' & Hy' & Hr').
  exists m'. split; [|split; [congruence | split; congruence]].
  unfold Late64.frame.
  destruct (Late64.Landscape_useFrame t w) as [w1|e w1]; simpl in *; [|exact Hm'].
  destruct (Late64_Effects_keeps w1) as (HE & _). rewrite HE. exact Hm'.
Qed.

Lemma Early64_frame_camera t w :
  Early64.camera (Three64.world_of (Early64.frame t w)) = Early64.camera w.
Proof.
  unfold Early64.frame.
  destruct (Early64_Landscape_keeps t w) as (_ & _ & _ & Hc).
  destruct (Early64.Landscape_useFrame t w) as [w1|e w1]; simpl in *; [|exact Hc].
  destruct (Early64_Effects_keeps w1) as (_ & Hc1 & _). congruence.
Qed.

Lemma Late64_frame_camera t w :
  Late64.camera (Three64.world_of (Late64.frame t w)) = Late64.camera w.
Proof.
  unfold Late64.frame.
  destruct (Late64_Landscape_keeps t w) as (_ & _ & _ & Hc).
  destruct (Late64.Landscape_useFrame t w) as [w1|e w1]; simpl in *; [|exact Hc].
  destruct (Late64_Effects_keeps w1) as (_ & Hc1 & _). congruence.
Qed.

(** ** The pages that the events reach *)

Lemma Early64_run_app sh es1 es2 p :
  Early64.run sh p (es1 ++ es2) = Early64.run sh (Early64.run sh p es1) es2.
Proof. apply fold_left_app. Qed.

Lemma Late64_run_app sh b es1 es2 p :
  Late64.run sh b p (es1 ++ es2) = Late64.run sh b (Late64.run sh b p es1) es2.
Proof. apply fold_left_app. Qed.

(** A property of the canvas that the commit establishes and the frames
    keep holds on every page that the events reach. *)
Lemma Early64_run_canvas sh (P : Early64.World -> Prop) :
  P (Early64.Canvas sh) ->
  (forall t w, P w -> P (Three64.world_of (Early64.frame t w))) ->
  forall es p, (forall w, Early64.canvas p = Some w -> P w) ->
    forall w, Early64.canvas (Early64.run sh p es) = Some w -> P w.
Proof.
  intros HC HF. induction es as [|e es IH]; intros p Hp; [exact Hp|].
  apply IH. intros w. destruct e as [| |t]; simpl.
  - apply Hp.
  - destruct (Early64.mounted p); simpl; [|apply Hp].
    destruct (Early64.canvas p) as [w0|] eqn:E; [rewrite E; apply Hp|].
    simpl. intros H. injection H as <-. exact HC.
  - destruct (Early64.mounted p); simpl; [|apply Hp].
    destruct (Early64.canvas p) as [w0|] eqn:E; [|rewrite E; apply Hp].
    simpl. intros H. injection H as <-. apply HF, Hp. reflexivity.
Qed.

Lemma Late64_run_canvas sh b (P : Late64.World -> Prop) :
  P (Late64.Canvas sh) ->
  (forall t w, P w -> P (Three64.world_of (Late64.frame t w))) ->
  (forall s w, P w -> P (Late64.Foo_useEffect s w)) ->
  forall es p, (forall w, Late64.canvas p = Some w -> P w) ->
    forall w, Late64.canvas (Late64.run sh b p es) = Some w -> P w.
Proof.
  intros HC HF HS. induction es as [|e es IH]; intros p Hp; [exact Hp|].
  apply IH. intros w. destruct e as [| |t|s]; simpl.
  - apply Hp.
  - destruct (Late64.mounted p); simpl; [|apply Hp].
    destruct (Late64.canvas p) as [w0|] eqn:E; [rewrite E; apply Hp|].
    simpl. intros H. injection H as <-. destruct b; [apply HS|]; exact HC.
  - destruct (Late64.mounted p); simpl; [|apply Hp].
    destruct (Late64.canvas p) as [w0|] eqn:E; [|rewrite E; apply Hp].
    simpl. intros H. injection H as <-. apply HF, Hp. reflexivity.
  - destruct (B64.Object_is s (Late64.scroll p)); [apply Hp|].
    simpl. destruct (Late64.canvas p) as [w0|]; [|discriminate].
    intros H. injection H as <-. apply HS, Hp. reflexivity.
Qed.

(** Before the mount there is no canvas, and a canvas stays. *)
Lemma Early64_run_unmounted sh es : forall p,
  Early64.mounted p = false -> Early64.canvas p = None ->
  Forall (fun e => e <> Early64.Mount) es ->
  Early64.mounted (Early64.run sh p es) = false /\
  Early64.canvas (Early64.run sh p es) = None.
Proof.
  induction es as [|e es IH]; intros p Hm Hc Hes; [split; assumption|].
  inversion Hes as [|e0 es0 He Hes']; subst.
  destruct e as [| |t]; [congruence| |]; simpl; rewrite Hm; simpl; apply IH; assumption.
Qed.

Lemma Late64_run_unmounted sh b es : forall p,
  Late64.mounted p = false -> Late64.canvas p = None ->
  Forall (fun e => e <> Late64.Mount) es ->
  Late64.mounted (Late64.run sh b p es) = false /\
  Late64.canvas (Late64.run sh b p es) = None.
Proof.
  induction es as [|e es IH]; intros p Hm Hc Hes; [split; assumption|].
  inversion Hes as [|e0 es0 He Hes']; subst.
  destruct e as [| |t|s]; [congruence| | |]; simpl.
  - rewrite Hm. simpl. apply IH; assumption.
  - rewrite Hm. simpl. apply IH; assumption.
  - destruct (B64.Object_is s (Late64.scroll p)); [apply IH; assumption|].
    apply IH; [exact Hm | simpl; rewrite Hc; reflexivity | assumption].
Qed.

(** Without the textures there is no canvas either. *)
Lemma Early64_run_unloaded sh es : forall p,
  Early64.canvas p = None ->
  Forall (fun e => e <> Early64.TexturesLoaded) es ->
  Early64.canvas (Early64.run sh p es) = None.
Proof.
  induction es as [|e es IH]; intros p Hc Hes; [assumption|].
  inversion Hes as [|e0 es0 He Hes']; subst.
  destruct e as [| |t]; [|congruence|]; simpl; apply IH; try assumption.
  destruct (Early64.mounted p); simpl; [rewrite Hc|]; assumption.
Qed.

Lemma Late64_run_unloaded sh b es : forall p,
  Late64.canvas p = None ->
  Forall (fun e => e <> Late64.TexturesLoaded) es ->
  Late64.canvas (Late64.run sh b p es) = None.
Proof.
  induction es as [|e es IH]; intros p Hc Hes; [assumption|].
  inversion Hes as [|e0 es0 He Hes']; subst.
  destruct e as [| |t|s]; [|congruence| |]; simpl; apply IH; try assumption.
  - destruct (Late64.mounted p); simpl; [rewrite Hc|]; assumption.
  - destruct (B64.Object_is s (Late64.scroll p)); [assumption|]. simpl. rewrite Hc. reflexivity.
Qed.

(** The flag stays, and so does the canvas. *)
Lemma Early64_run_mounted sh es : forall p,
  Early64.mounted p = true -> Early64.mounted (Early64.run sh p es) = true.
Proof.
  induction es as [|e es IH]; intros p Hm; [exact Hm|].
  apply IH. destruct e as [| |t]; simpl; [reflexivity| |]; rewrite Hm; simpl;
    destruct (Early64.canvas p); simpl; first [assumption | reflexivity].
Qed.

Lemma Late64_run_mounted sh b es : forall p,
  Late64.mounted p = true -> Late64.mounted (Late64.run sh b p es) = true.
Proof.
  induction es as [|e es IH]; intros p Hm; [exact Hm|].
  apply IH. destruct e as [| |t|s]; simpl; [reflexivity| | |].
  - rewrite Hm; simpl; destruct (Late64.canvas p); simpl; first [assumption | reflexivity].
  - rewrite Hm; simpl; destruct (Late64.canvas p); simpl; first [assumption | reflexivity].
  - destruct (B64.Object_is s (Late64.scroll p)); assumption.
Qed.

Lemma Early64_run_committed sh es : forall p,
  is_Some (Early64.canvas p) -> is_Some (Early64.canvas (Early64.run sh p es)).
Proof.
  induction es as [|e es IH]; intros p [w Hw]; [eauto|].
  apply IH. destruct e as [| |t]; simpl; [eauto| |];
    destruct (Early64.mounted p); simpl; rewrite ?Hw; eauto.
Qed.

Lemma Late64_run_committed sh b es : forall p,
  is_Some (Late64.canvas p) -> is_Some (Late64.canvas (Late64.run sh b p es)).
Proof.
  induction es as [|e es IH]; intros p [w Hw]; [eauto|].
  apply IH. destruct e as [| |t|s]; simpl; [eauto| | |].
  - destruct (Late64.mounted p); simpl; rewrite ?Hw; eauto.
  - destruct (Late64.mounted p); simpl; rewrite ?Hw; eauto.
  - destruct (B64.Object_is s (Late64.scroll p)); simpl; rewrite ?Hw; eauto.
Qed.

(** A canvas is there on mounted pages only. *)
Lemma Early64_run_canvas_mounted sh es : forall p,
  (is_Some (Early64.canvas p) -> Early64.mounted p = true) ->
  is_Some (Early64.canvas (Early64.run sh p es)) ->
  Early64.mounted (Early64.run sh p es) = true.
Proof.
  induction es as [|e es IH]; intros p Hp; [exact Hp|].
  apply IH. destruct e as [| |t]; simpl; [reflexivity| |].
  - destruct (Early64.mounted p) eqn:Hm; simpl; [|rewrite Hm; exact Hp].
    destruct (Early64.canvas p); [rewrite Hm|]; reflexivity.
  - destruct (Early64.mounted p) eqn:Hm; simpl; [|rewrite Hm; exact Hp].
    destruct (Early64.canvas p); [|rewrite Hm]; reflexivity.
Qed.

Lemma Late64_run_canvas_mounted sh b es : forall p,
  (is_Some (Late64.canvas p) -> Late64.mounted p = true) ->
  is_Some (Late64.canvas (Late64.run sh b p es)) ->
  Late64.mounted (Late64.run sh b p es) = true.
Proof.
  induction es as [|e es IH]; intros p Hp; [exact Hp|].
  apply IH. destruct e as [| |t|s]; simpl; [reflexivity| | |].
  - destruct (Late64.mounted p) eqn:Hm; simpl; [|rewrite Hm; exact Hp].
    destruct (Late64.canvas p); [rewrite Hm|]; reflexivity.
  - destruct (Late64.mounted p) eqn:Hm; simpl; [|rewrite Hm; exact Hp].
    destruct (Late64.canvas p); [|rewrite Hm]; reflexivity.
  - destruct (B64.Object_is s (Late64.scroll p)); [exact Hp|]. simpl.
    intros H. apply Hp. destruct (Late64.canvas p); [eauto|].
    destruct H as [? H]. discriminate H.
Qed.

(** ** The camera *)


Lemma Late64_step_no_scroll sh b p w e :
  Late64.canvas p = Some w -> no_scroll e = true ->
  Late64.scroll (Late64.step sh b p e) = Late64.scroll p /\
  exists w', Late64.canvas (Late64.step sh b p e) = Some w' /\
    Late64.camera w' = Late64.camera w.
Proof.
  intros Hw He. destruct e as [| |t|s]; [| | |discriminate]; simpl.
  - eauto.
  - destruct (Late64.mounted p); simpl; rewrite ?Hw; eauto.
  - destruct (Late64.mounted p); simpl; rewrite ?Hw; [|eauto].
    split; [reflexivity|]. eexists. split; [reflexivity|]. apply Late64_frame_camera.
Qed.

Lemma Late64_run_no_scroll sh b es : forall p w,
  Late64.canvas p = Some w -> forallb no_scroll es = true ->
  Late64.scroll (Late64.run sh b p es) = Late64.scroll p /\
  exists w', Late64.canvas (Late64.run sh b p es) = Some w' /\
    Late64.camera w' = Late64.camera w.
Proof.
  induction es as [|e es IH]; intros p w Hw Hes; [eauto|].
  simpl in Hes. apply andb_prop in Hes as [He Hes].
  destruct (Late64_step_no_scroll sh b p w e Hw He) as (Hs1 & w1 & Hw1 & Hc1).
  destruct (IH _ w1 Hw1 Hes) as (Hs & w' & Hw' & Hc).
  split; [simpl; congruence|]. exists w'. split; [exact Hw' | congruence].
Qed.

(** ** The mount and the loading *)

Lemma Early64_run_ok sh :
  is_Some (Three64.shader_uniforms sh !! "amount"%string) ->
  forall es w, Early64.canvas (Early64.run sh Early64.init es) = Some w ->
    Early64.attached w = true /\ Early64_effects_ok w.
Proof.
  intros Hsh es.
  apply (Early64_run_canvas sh (fun w => Early64.attached w = true /\ Early64_effects_ok w)).
  - split; [reflexivity|]. split; [eexists; split; [reflexivity | exact Hsh] | simpl; eauto].
  - intros t w [Hw He].
    destruct (Early64_frame_writes t w Hw He) as (w' & -> & _ & _ & _ & _ & _ & Hw' & He').
    split; assumption.
  - intros w H. discriminate H.
Qed.

Lemma Late64_run_ok sh b :
  is_Some (Three64.shader_uniforms sh !! "amount"%string) ->
  forall es w, Late64.canvas (Late64.run sh b Late64.init es) = Some w ->
    Late64.attached w = true /\ Late64_effects_ok w.
Proof.
  intros Hsh es.
  apply (Late64_run_canvas sh b (fun w => Late64.attached w = true /\ Late64_effects_ok w)).
  - split; [reflexivity|]. split; [eexists; split; [reflexivity | exact Hsh] | simpl; eauto].
  - intros t w [Hw He].
    destruct (Late64_frame_writes t w Hw He)
      as (w' & -> & _ & _ & _ & _ & _ & _ & Hw' & He').
    split; assumption.
  - intros s w H. exact H.
  - intros w H. discriminate H.
Qed.

Lemma Early64_run_loaded sh es1 es2 es3 :
  let p := Early64.run sh Early64.init
             (es1 ++ Early64.Mount :: es2 ++ Early64.TexturesLoaded :: es3) in
  Early64.mounted p = true /\ is_Some (Early64.canvas p).
Proof.
  simpl. rewrite Early64_run_app. simpl. rewrite Early64_run_app. simpl.
  set (p0 := Early64.run sh Early64.init es1).
  set (p1 := Early64.run sh _ es2).
  assert (Hm1 : Early64.mounted p1 = true) by (apply Early64_run_mounted; reflexivity).
  rewrite Hm1. simpl. split.
  - apply Early64_run_mounted. destruct (Early64.canvas p1); [exact Hm1 | reflexivity].
  - apply Early64_run_committed. destruct (Early64.canvas p1) eqn:E; simpl; rewrite ?E; eauto.
Qed.

Lemma Late64_run_loaded sh b es1 es2 es3 :
  let p := Late64.run sh b Late64.init
             (es1 ++ Late64.Mount :: es2 ++ Late64.TexturesLoaded :: es3) in
  Late64.mounted p = true /\ is_Some (Late64.canvas p).
Proof.
  simpl. rewrite Late64_run_app. simpl. rewrite Late64_run_app. simpl.
  set (p0 := Late64.run sh b Late64.init es1).
  set (p1 := Late64.run sh b _ es2).
  assert (Hm1 : Late64.mounted p1 = true) by (apply Late64_run_mounted; reflexivity).
  rewrite Hm1. simpl. split.
  - apply Late64_run_mounted. destruct (Late64.canvas p1); [exact Hm1 | reflexivity].
  - apply Late64_run_committed. destruct (Late64.canvas p1) eqn:E; simpl; rewrite ?E; eauto.
Qed.

(** * The claims *)

(** C1.  For every terrain instance [i] with stagger [s_i] and every
    elapsed time (any double) given to the frame callback of [Landscape],
    the callback returns and the depth it writes to the instance is the
    number [(elapsed_time * rate) % period + s_i], the product and the sum
    being those of doubles and [%] the remainder of the rounded product:
    period 2, rate 0.1 and staggers 0 and -2 in the earlier revision, rate
    0 and staggers 0, -2 and 2 in the later one.  For the elapsed times of
    a clock, which are not negative, the remainder [%] is the modulo of the
    specification. *)
Theorem C1_terrain_depth_formula :
  (forall t w, Early64.attached w = true ->
     exists w', Early64.Landscape_useFrame t w = Three64.Done w' /\
       forall i, exists d, Early64.depth i w' = Some d /\
         B64.same d (B64.add (B64.rem (B64.mul t B64.lit_0_1) B64.two) (Early64.stagger i)) /\
         (B64.negative t = false ->
          B64.same d (depth_spec64 B64.lit_0_1 B64.two (Early64.stagger i) t))) /\
  (forall t w, Late64.attached w = true ->
     exists w', Late64.Landscape_useFrame t w = Three64.Done w' /\
       forall i, exists d, Late64.depth i w' = Some d /\
         B64.same d (B64.add (B64.rem (B64.mul t B64.zero) B64.two) (Late64.stagger i)) /\
         (B64.negative t = false ->
          B64.same d (depth_spec64 B64.zero B64.two (Late64.stagger i) t))).
Proof.
  split; intros t w Hw.
  - destruct (Early64_Landscape_attached t w Hw) as (m1 & m2 & _ & _ & ->).
    eexists. split; [reflexivity|]. unfold depth_spec64.
    intros i.
    destruct (depths_same (B64.rem (B64.mul t B64.lit_0_1) B64.two) _ (or_introl eq_refl))
      as (E1 & E2 & E3).
    destruct i; (eexists; split; [reflexivity|]); simpl;
      (split; [assumption|]); intros Ht;
      pose proof (rem_modulo (B64.mul t B64.lit_0_1) 4503599627370496 (-51)
                    (mul_not_negative t B64.lit_0_1 Ht eq_refl)) as Hrm;
      apply (depths_same _ _ Hrm).
  - destruct (Late64_Landscape_attached t w Hw) as (m1 & m2 & m3 & _ & _ & _ & ->).
    eexists. split; [reflexivity|]. unfold depth_spec64.
    intros i.
    destruct (depths_same (B64.rem (B64.mul t B64.zero) B64.two) _ (or_introl eq_refl))
      as (E1 & E2 & E3).
    destruct i; (eexists; split; [reflexivity|]); simpl;
      (split; [assumption|]); intros Ht;
      pose proof (rem_modulo (B64.mul t B64.zero) 4503599627370496 (-51)
                    (mul_not_negative t B64.zero Ht eq_refl)) as Hrm;
      apply (depths_same _ _ Hrm).
Qed.

Lemma C1_witness :
  (exists w', Early64.Landscape_useFrame (Prim2SF 37) (Early64.Canvas RGBShiftShader64)
                = Three64.Done w' /\
     forall i, exists d, Early64.depth i w' = Some d /\
       B64.same d (B64.add (B64.rem (B64.mul (Prim2SF 37) B64.lit_0_1) B64.two)
                     (Early64.stagger i)) /\
       (B64.negative (Prim2SF 37) = false ->
        B64.same d (depth_spec64 B64.lit_0_1 B64.two (Early64.stagger i) (Prim2SF 37)))) /\
  (exists w', Late64.Landscape_useFrame (Prim2SF 37) (Late64.Canvas RGBShiftShader64)
                = Three64.Done w' /\
     forall i, exists d, Late64.depth i w' = Some d /\
       B64.same d (B64.add (B64.rem (B64.mul (Prim2SF 37) B64.zero) B64.two)
                     (Late64.stagger i)) /\
       (B64.negative (Prim2SF 37) = false ->
        B64.same d (depth_spec64 B64.zero B64.two (Late64.stagger i) (Prim2SF 37)))).
Proof.
  split.
  - apply (proj1 C1_terrain_depth_formula). reflexivity.
  - apply (proj2 C1_terrain_depth_formula). reflexivity.
Defined.

(** Where the product is rounded up to a whole number of periods the
    terrain is at the start of its range, though the elapsed time is just
    short of the wrap: at 59.999999999999993 seconds the product is the
    double 6. *)
Example Early64_wraps_on_the_rounded_product :
  let t := Prim2SF 0x1.dffffffffffffp+5 in
  B64.mul t B64.lit_0_1 = Prim2SF 6 /\
  exists w', Early64.Landscape_useFrame t (Early64.Canvas RGBShiftShader64)
               = Three64.Done w' /\
    Early64.depth Early64.terrain1 w' = Some B64.zero /\
    Early64.depth Early64.terrain2 w' = Some B64.minus_two.
Proof. vm_compute. split; [reflexivity|]. eexists. repeat split. Qed.



(** C3, as the specification states it, fails: five seconds into the
    earlier revision the first terrain is at depth 0.5 and the second at
    -1.5, so they differ by 2, while [(0 - (-2)) mod 2] is 0, for the
    modulo of the specification and for the remainder of JavaScript
    alike. *)
Lemma C3_counterexample :
  exists w' d1 d2,
    Early.Landscape_useFrame 5 (Early.Canvas RGBShiftShader_stdlib) = Ok w' /\
    Early.depth Early.terrain1 w' = Some d1 /\
    Early.depth Early.terrain2 w' = Some d2 /\
    d1 == 0.5 /\ d2 == -1.5 /\
    ~ Early.stagger Early.terrain1 == Early.stagger Early.terrain2 /\
    ~ d1 - d2 == Qmod (Early.stagger Early.terrain1 - Early.stagger Early.terrain2) 2 /\
    ~ d1 - d2 == fmod (Early.stagger Early.terrain1 - Early.stagger Early.terrain2) 2.
Proof.
  eexists; eexists; eexists.
  split; [reflexivity|]. split; [reflexivity|]. split; [reflexivity|].
  split; [reflexivity|]. split; [reflexivity|].
  split; [discriminate|]. split; discriminate.
Qed.

(** Five seconds into the earlier revision, on doubles: the depths are 0.5
    and -1.5, two apart, while the difference of the staggers leaves 0,
    as a remainder and as a modulo. *)
Example Early64_spacing_at_5 :
  exists w',
    Early64.Landscape_useFrame (Prim2SF 5) (Early64.Canvas RGBShiftShader64)
      = Three64.Done w' /\
    Early64.depth Early64.terrain1 w' = Some (Prim2SF 0.5) /\
    Early64.depth Early64.terrain2 w' = Some (Prim2SF (-1.5)) /\
    B64.sub (Prim2SF 0.5) (Prim2SF (-1.5)) = B64.two /\
    B64.rem (B64.sub (Early64.stagger Early64.terrain1)
                     (Early64.stagger Early64.terrain2)) B64.two = B64.zero /\
    B64.modulo (B64.sub (Early64.stagger Early64.terrain1)
                        (Early64.stagger Early64.terrain2)) B64.two = B64.zero.
Proof. eexists. repeat split. Qed.

(** C3 also fails for the exactness it claims: one second into the earlier
    revision the depths that the code stores are 7205759403792794 / 2^56
    and -8556839292003942 / 2^52, whose difference is 2 - 3 / 2^55. *)
Example Early64_spacing_is_rounded :
  exists w' d1 d2 q1 q2,
    Early64.Landscape_useFrame B64.one (Early64.Canvas RGBShiftShader64)
      = Three64.Done w' /\
    Early64.depth Early64.terrain1 w' = Some d1 /\
    Early64.depth Early64.terrain2 w' = Some d2 /\
    B64.exact d1 = Some q1 /\ B64.exact d2 = Some q2 /\
    q1 - q2 == 2 - (3 # 2 ^ 55) /\ ~ q1 - q2 == 2.
Proof.
  eexists; eexists; eexists; eexists; eexists.
  split; [reflexivity|]. split; [reflexivity|]. split; [reflexivity|].
  split; [reflexivity|]. split; [reflexivity|]. split; [reflexivity | discriminate].
Qed.

(** C3, amended.  At every tick the depths of the terrain instances are
    one shared remainder [r] with the stagger of each added to it, each sum
    a double: nothing reduces their spacing modulo the period.  In the
    earlier revision the second terrain is the first minus 2, rounded
    once.  In the later revision, at every finite elapsed time, each depth
    is the stagger of its instance, so that two depths differ by exactly
    the difference of their staggers. *)
Theorem C3_terrain_spacing :
  (forall t w, Early64.attached w = true ->
     exists w' r, Early64.Landscape_useFrame t w = Three64.Done w' /\
       r = B64.rem (B64.mul t B64.lit_0_1) B64.two /\
       (forall i, exists d, Early64.depth i w' = Some d /\
          B64.same d (B64.add r (Early64.stagger i))) /\
       Early64.depth Early64.terrain1 w' = Some r /\
       Early64.depth Early64.terrain2 w' = Some (B64.sub r B64.two)) /\
  (forall t w, Late64.attached w = true ->
     exists w' r, Late64.Landscape_useFrame t w = Three64.Done w' /\
       r = B64.rem (B64.mul t B64.zero) B64.two /\
       (forall i, exists d, Late64.depth i w' = Some d /\
          B64.same d (B64.add r (Late64.stagger i))) /\
       (B64.finite t = true ->
        forall i j, exists d_i d_j,
          Late64.depth i w' = Some d_i /\ Late64.depth j w' = Some d_j /\
          B64.same d_i (Late64.stagger i) /\
          B64.sub d_i d_j = B64.sub (Late64.stagger i) (Late64.stagger j))).
Proof.
  split; intros t w Hw.
  - destruct (Early64_Landscape_attached t w Hw) as (m1 & m2 & _ & _ & ->).
    eexists. eexists. split; [reflexivity|]. split; [reflexivity|].
    split; [|split; reflexivity].
    intros [|]; (eexists; split; [reflexivity|]); simpl.
    + apply add_zero_same.
    + left. apply sub_two_add.
  - destruct (Late64_Landscape_attached t w Hw) as (m1 & m2 & m3 & _ & _ & _ & ->).
    eexists. eexists. split; [reflexivity|]. split; [reflexivity|]. split.
    + intros [| |]; (eexists; split; [reflexivity|]); simpl.
      * apply add_zero_same.
      * left. apply sub_two_add.
      * left. reflexivity.
    + intros Ht. destruct (rem_times_zero t Ht) as [s Hs].
      intros i j.
      destruct i, j; (eexists; eexists;
        split; [reflexivity|]; split; [reflexivity|]);
        simpl; rewrite Hs; destruct s; split;
        first [reflexivity | left; reflexivity | right; reflexivity].
Qed.

Lemma C3_witness :
  (exists w' r,
     Early64.Landscape_useFrame B64.one (Early64.Canvas RGBShiftShader64)
       = Three64.Done w' /\
     r = B64.rem (B64.mul B64.one B64.lit_0_1) B64.two /\
     (forall i, exists d, Early64.depth i w' = Some d /\
        B64.same d (B64.add r (Early64.stagger i))) /\
     Early64.depth Early64.terrain1 w' = Some r /\
     Early64.depth Early64.terrain2 w' = Some (B64.sub r B64.two)) /\
  (exists w' r,
     Late64.Landscape_useFrame B64.one (Late64.Canvas RGBShiftShader64)
       = Three64.Done w' /\
     r = B64.rem (B64.mul B64.one B64.zero) B64.two /\
     (forall i, exists d, Late64.depth i w' = Some d /\
        B64.same d (B64.add r (Late64.stagger i))) /\
     (B64.finite B64.one = true ->
      forall i j, exists d_i d_j,
        Late64.depth i w' = Some d_i /\ Late64.depth j w' = Some d_j /\
        B64.same d_i (Late64.stagger i) /\
        B64.sub d_i d_j = B64.sub (Late64.stagger i) (Late64.stagger j))).
Proof.
  split.
  - apply (proj1 C3_terrain_spacing). reflexivity.
  - apply (proj2 C3_terrain_spacing). reflexivity.
Defined.




(** C5.  With the rate 0 of the later revision the depth that the frame
    callback writes to an instance is the same for every elapsed time: it
    is the stagger of the instance. *)
Theorem C5_rate_zero_freezes :
  forall t1 t2 w, Late.attached w = true ->
    exists w1 w2,
      Late.Landscape_useFrame t1 w = Ok w1 /\
      Late.Landscape_useFrame t2 w = Ok w2 /\
      forall i, exists d1 d2,
        Late.depth i w1 = Some d1 /\ Late.depth i w2 = Some d2 /\
        d1 == d2 /\ d1 == Late.stagger i.
Proof.
  intros t1 t2 w Hw.
  destruct (Late_Landscape_total t1 w Hw) as [w1 H1].
  destruct (Late_Landscape_total t2 w Hw) as [w2 H2].
  exists w1, w2. split; [exact H1|]. split; [exact H2|].
  intros i. eexists; eexists.
  split; [apply (Late_depth_after _ _ _ _ H1)|].
  split; [apply (Late_depth_after _ _ _ _ H2)|].
  pose proof (fmod_times_zero t1) as E1. pose proof (fmod_times_zero t2) as E2.
  destruct i; simpl; lra.
Qed.

Lemma C5_witness :
  exists w1 w2,
    Late.Landscape_useFrame 1 (Late.Canvas RGBShiftShader_stdlib) = Ok w1 /\
    Late.Landscape_useFrame 1000000 (Late.Canvas RGBShiftShader_stdlib) = Ok w2 /\
    forall i, exists d1 d2,
      Late.depth i w1 = Some d1 /\ Late.depth i w2 = Some d2 /\
      d1 == d2 /\ d1 == Late.stagger i.
Proof.
  apply (C5_rate_zero_freezes 1 1000000 (Late.Canvas RGBShiftShader_stdlib)).
  reflexivity.
Defined.

(** ** Running the same update again *)

Lemma Early_frame_idem t w w1 :
  Early.frame t w = Ok w1 -> Early.frame t w1 = Ok w1.
Proof.
  unfold Early.frame. intros H.
  destruct (Early.Landscape_useFrame t w) as [w0|] eqn:HL; simpl in H; [|discriminate].
  apply Early_Landscape_inv in HL as (m1 & m2 & H1 & H2 & ->).
  apply Early_Effects_inv in H as [[c Hc] [[Hr ->] | (pass & Hr & [u Hu] & ->)]];
    destruct w as [r1 r2 rp rc cam]; simpl in *; subst;
    unfold Early.Landscape_useFrame; rewrite ?rem_two; simpl;
    unfold Early.Effects_useFrame, set_uniform_value; simpl.
  - reflexivity.
  - rewrite lookup_insert_eq. simpl. rewrite insert_insert_eq. reflexivity.
Qed.

Lemma Late_frame_idem t w w1 :
  Late.frame t w = Ok w1 -> Late.frame t w1 = Ok w1.
Proof.
  unfold Late.frame. intros H.
  destruct (Late.Landscape_useFrame t w) as [w0|] eqn:HL; simpl in H; [|discriminate].
  apply Late_Landscape_inv in HL as (m1 & m2 & m3 & H1 & H2 & H3 & ->).
  apply Late_Effects_inv in H as [[c Hc] [[Hr ->] | (pass & Hr & [u Hu] & ->)]];
    destruct w as [r1 r2 r3 rp rc cam]; simpl in *; subst;
    unfold Late.Landscape_useFrame; rewrite ?rem_two; simpl;
    unfold Late.Effects_useFrame, set_uniform_value; simpl.
  - reflexivity.
  - rewrite lookup_insert_eq. simpl. rewrite insert_insert_eq. reflexivity.
Qed.

(** A frame leaves the camera where it is. *)
Lemma Late_frame_camera t w w1 :
  Late.frame t w = Ok w1 -> Late.camera w1 = Late.camera w.
Proof.
  unfold Late.frame. intros H.
  destruct (Late.Landscape_useFrame t w) as [w0|] eqn:HL; simpl in H; [|discriminate].
  apply Late_Landscape_inv in HL as (m1 & m2 & m3 & _ & _ & _ & ->).
  apply Late_Effects_inv in H as [_ [[_ ->] | (pass & _ & _ & ->)]]; reflexivity.
Qed.

(** The effect of [Foo] changes nothing when the camera is already where
    it puts it. *)
Lemma Late_Foo_fixed s w w1 :
  Late.camera w1 = Late.camera (Late.Foo_useEffect s w) ->
  Late.Foo_useEffect s w1 = w1.
Proof.
  destruct w1 as [r1 r2 r3 rp rc cam]. unfold Late.Foo_useEffect. simpl.
  intros ->. reflexivity.
Qed.

(** C6.  Running the update a second time with the same elapsed time and
    the same scroll offset changes nothing: the frame callbacks, and the
    scroll effect followed by the frame callbacks, return the world they
    are given when it is one they produced, and a page that has handled
    the scroll and the frame once is left with the same canvas, the same
    scroll offset and the same mount flag when it handles them again. *)
Theorem C6_update_idempotent :
  (forall t w w1, Early.frame t w = Ok w1 -> Early.frame t w1 = Ok w1) /\
  (forall t s w w1,
     Late.frame t (Late.Foo_useEffect s w) = Ok w1 ->
     Late.frame t (Late.Foo_useEffect s w1) = Ok w1) /\
  (forall sh t p p1,
     Early.run sh p [Early.AnimationFrame t] = Ok p1 ->
     exists p2, Early.run sh p1 [Early.AnimationFrame t] = Ok p2 /\
       Early.canvas p2 = Early.canvas p1 /\
       Early.mounted p2 = Early.mounted p1) /\
  (forall sh t s p p1,
     Late.run sh p [Late.Scroll s; Late.AnimationFrame t] = Ok p1 ->
     exists p2, Late.run sh p1 [Late.Scroll s; Late.AnimationFrame t] = Ok p2 /\
       Late.canvas p2 = Late.canvas p1 /\
       Late.scroll p2 = Late.scroll p1 /\
       Late.mounted p2 = Late.mounted p1).
Proof.
  split; [exact Early_frame_idem|]. split; [|split].
  - intros t s w w1 H.
    rewrite (Late_Foo_fixed s w w1 (Late_frame_camera _ _ _ H)).
    exact (Late_frame_idem _ _ _ H).
  - intros sh t [m c n] p1. simpl. destruct m; simpl.
    + destruct c as [w|]; simpl.
      * destruct (Early.frame t w) as [w1|] eqn:Hf; simpl; [|discriminate].
        intros H; injection H as <-. simpl.
        rewrite (Early_frame_idem _ _ _ Hf). simpl. eauto.
      * intros H; injection H as <-. simpl. eauto.
    + intros H; injection H as <-. simpl. eauto.
  - intros sh t s [m s0 c n] p1. simpl.
    assert (Hss : Qeq_bool s s = true) by (apply Qeq_bool_iff; reflexivity).
    destruct (Qeq_bool s s0) eqn:E; simpl; destruct m; simpl.
    + destruct c as [w|]; simpl.
      * destruct (Late.frame t w) as [w1|] eqn:Hf; simpl; [|discriminate].
        intros H; injection H as <-. simpl. rewrite E. simpl.
        rewrite (Late_frame_idem _ _ _ Hf). simpl. eauto.
      * intros H; injection H as <-. simpl. rewrite E. simpl. eauto.
    + intros H; injection H as <-. simpl. rewrite E. simpl. eauto.
    + destruct c as [w|]; simpl.
      * destruct (Late.frame t (Late.Foo_useEffect s w)) as [w1|] eqn:Hf; simpl;
          [|discriminate].
        intros H; injection H as <-. simpl. rewrite Hss. simpl.
        rewrite (Late_frame_idem _ _ _ Hf). simpl. eauto.
      * intros H; injection H as <-. simpl. rewrite Hss. simpl. eauto.
    + intros H; injection H as <-. simpl. rewrite Hss. simpl. eauto.
Qed.

Lemma C6_witness :
  exists p1 p2,
    Late.run RGBShiftShader_stdlib Late.init
      [Late.Mount; Late.Scroll 100; Late.AnimationFrame 7] = Ok p1 /\
    Late.run RGBShiftShader_stdlib p1 [Late.Scroll 100; Late.AnimationFrame 7] = Ok p2 /\
    Late.canvas p2 = Late.canvas p1 /\
    Late.scroll p2 = Late.scroll p1 /\
    Late.mounted p2 = Late.mounted p1.
Proof.
  destruct (proj2 (proj2 (proj2 C6_update_idempotent)) RGBShiftShader_stdlib 7 100
              {| Late.mounted := true; Late.scroll := 0;
                 Late.canvas := Some (Late.Foo_useEffect 0
                                        (Late.Canvas RGBShiftShader_stdlib));
                 Late.ticks := 0 |} _ eq_refl) as (p2 & H2).
  eexists. exists p2. split; [reflexivity | exact H2].
Defined.

(** C7.  Every tick assigns the literal 0.0012 to the [amount] uniform of
    the RGB shift pass: after the frame callback of [Effects] the amount
    is 0.0012 whenever the pass is attached, and on every page that the
    events reach the amount is 0.0012 as soon as one frame has run, in
    both revisions. *)
Theorem C7_shift_amount_constant :
  (forall w w', Early.Effects_useFrame w = Ok w' ->
     is_Some (Early.rgbShiftRef w) -> Early.amount w' = Some 0.0012) /\
  (forall w w', Late.Effects_useFrame w = Ok w' ->
     is_Some (Late.rgbShiftRef w) -> Late.amount w' = Some 0.0012) /\
  (forall sh es, is_Some (shader_uniforms sh !! "amount"%string) ->
     exists p, Early.run sh Early.init es = Ok p /\
       ((0 < Early.ticks p)%nat ->
        exists w, Early.canvas p = Some w /\ Early.amount w = Some 0.0012)) /\
  (forall sh es, is_Some (shader_uniforms sh !! "amount"%string) ->
     exists p, Late.run sh Late.init es = Ok p /\
       ((0 < Late.ticks p)%nat ->
        exists w, Late.canvas p = Some w /\ Late.amount w = Some 0.0012)).
Proof.
  split; [|split; [|split]].
  - intros w w' H [pass Hp].
    apply Early_Effects_inv in H as [_ [[Hr _] | (pass' & _ & _ & ->)]]; [congruence|].
    unfold Early.amount, uniform_number. simpl. rewrite lookup_insert_eq. reflexivity.
  - intros w w' H [pass Hp].
    apply Late_Effects_inv in H as [_ [[Hr _] | (pass' & _ & _ & ->)]]; [congruence|].
    unfold Late.amount, uniform_number. simpl. rewrite lookup_insert_eq. reflexivity.
  - intros sh es Hsh.
    destruct (Early_run_ok sh Hsh es Early.init Early_init_ok) as (p & Hp & Hok & _).
    exists p. split; [exact Hp|]. intros Hn.
    unfold Early_page_ok in Hok. destruct (Early.mounted p).
    + destruct Hok as (w & Hw & _ & Ha). eauto.
    + destruct Hok as [_ H0]. lia.
  - intros sh es Hsh.
    destruct (Late_run_ok sh Hsh es Late.init Late_init_ok) as (p & Hp & Hok & _).
    exists p. split; [exact Hp|]. intros Hn.
    unfold Late_page_ok in Hok. destruct (Late.mounted p).
    + destruct Hok as (w & Hw & _ & _ & Ha). eauto.
    + destruct Hok as [_ H0]. lia.
Qed.

Lemma C7_witness :
  exists p,
    Late.run RGBShiftShader_stdlib Late.init
      [Late.Mount; Late.AnimationFrame 1; Late.Scroll 40; Late.AnimationFrame 2] = Ok p /\
    ((0 < Late.ticks p)%nat ->
     exists w, Late.canvas p = Some w /\ Late.amount w = Some 0.0012).
Proof.
  apply (proj2 (proj2 (proj2 C7_shift_amount_constant))). vm_compute. eauto.
Defined.

(** ** The mount and the ticks *)

(** C8, as the specification states it, fails between the mount and the
    commit of the children of the canvas: the mount has fired, and a
    refresh runs no tick, since nothing has subscribed to the frames while
    the textures load. *)
Lemma C8_counterexample :
  (Early64.mounted (Early64.run RGBShiftShader64 Early64.init [Early64.Mount]) = true /\
   Early64.canvas (Early64.run RGBShiftShader64 Early64.init [Early64.Mount]) = None /\
   Early64.canvas
     (Early64.run RGBShiftShader64 Early64.init
        [Early64.Mount; Early64.AnimationFrame B64.one]) = None) /\
  (Late64.mounted (Late64.run RGBShiftShader64 true Late64.init [Late64.Mount]) = true /\
   Late64.canvas (Late64.run RGBShiftShader64 true Late64.init [Late64.Mount]) = None /\
   Late64.canvas
     (Late64.run RGBShiftShader64 true Late64.init
        [Late64.Mount; Late64.AnimationFrame B64.one]) = None).
Proof. repeat split. Qed.

(** C8, amended.  Before the mount no tick runs and there is no scene
    graph to mutate: events without the mount leave the page unmounted and
    without a canvas, and so do, for the canvas, events without the
    loading of the textures.  Once the mount and then the loading have
    happened, the page stays mounted with its canvas whatever follows, and
    every refresh runs the tick: both callbacks return, the terrains are at
    the depths of that time, the amount of the shift is 0.0012, and the
    composer has drawn the terrains with the camera.  Both revisions, for a
    shader that declares [amount]. *)
Theorem C8_mount_gate :
  forall sh, is_Some (Three64.shader_uniforms sh !! "amount"%string) ->
  ((forall es, Forall (fun e => e <> Early64.Mount) es ->
      Early64.mounted (Early64.run sh Early64.init es) = false /\
      Early64.canvas (Early64.run sh Early64.init es) = None) /\
   (forall es, Forall (fun e => e <> Early64.TexturesLoaded) es ->
      Early64.canvas (Early64.run sh Early64.init es) = None) /\
   (forall es1 es2 es3 t,
      let p := Early64.run sh Early64.init
                 (es1 ++ Early64.Mount :: es2 ++ Early64.TexturesLoaded :: es3) in
      Early64.mounted p = true /\
      exists w w', Early64.canvas p = Some w /\
        Early64.frame t w = Three64.Done w' /\
        Early64.canvas (Early64.step sh p (Early64.AnimationFrame t)) = Some w' /\
        Early64.depth Early64.terrain1 w'
          = Some (B64.rem (B64.mul t B64.lit_0_1) B64.two) /\
        Early64.depth Early64.terrain2 w'
          = Some (B64.sub (B64.rem (B64.mul t B64.lit_0_1) B64.two) B64.two) /\
        (exists pass, Early64.rgbShiftRef w' = Some pass /\
           Three64.uniform_value pass "amount" = Some (Three64.UNumber B64.lit_0_0012)) /\
        Early64_drawn w')) /\
  (forall b,
   (forall es, Forall (fun e => e <> Late64.Mount) es ->
      Late64.mounted (Late64.run sh b Late64.init es) = false /\
      Late64.canvas (Late64.run sh b Late64.init es) = None) /\
   (forall es, Forall (fun e => e <> Late64.TexturesLoaded) es ->
      Late64.canvas (Late64.run sh b Late64.init es) = None) /\
   (forall es1 es2 es3 t,
      let p := Late64.run sh b Late64.init
                 (es1 ++ Late64.Mount :: es2 ++ Late64.TexturesLoaded :: es3) in
      Late64.mounted p = true /\
      exists w w', Late64.canvas p = Some w /\
        Late64.frame t w = Three64.Done w' /\
        Late64.canvas (Late64.step sh b p (Late64.AnimationFrame t)) = Some w' /\
        Late64.depth Late64.terrain1 w'
          = Some (B64.rem (B64.mul t B64.zero) B64.two) /\
        Late64.depth Late64.terrain2 w'
          = Some (B64.sub (B64.rem (B64.mul t B64.zero) B64.two) B64.two) /\
        Late64.depth Late64.terrain3 w'
          = Some (B64.add (B64.rem (B64.mul t B64.zero) B64.two) B64.two) /\
        (exists pass, Late64.rgbShiftRef w' = Some pass /\
           Three64.uniform_value pass "amount" = Some (Three64.UNumber B64.lit_0_0012)) /\
        Late64_drawn w')).
Proof.
  intros sh Hsh. split; [|intros b]; (split; [|split]).
  - intros es Hes. apply Early64_run_unmounted; [reflexivity | reflexivity | exact Hes].
  - intros es Hes. apply Early64_run_unloaded; [reflexivity | exact Hes].
  - intros es1 es2 es3 t p.
    destruct (Early64_run_loaded sh es1 es2 es3) as [Hm [w Hw]]. fold p in Hm, Hw.
    split; [exact Hm|].
    destruct (Early64_run_ok sh Hsh _ w Hw) as [Ha He].
    destruct (Early64_frame_writes t w Ha He) as (w' & Hf & H1 & H2 & H3 & H4 & _).
    exists w, w'. split; [exact Hw|]. split; [exact Hf|].
    split; [|split; [exact H1 | split; [exact H2 | split; [exact H3 | exact H4]]]].
    simpl. rewrite Hm, Hw. simpl. rewrite Hf. reflexivity.
  - intros es Hes. apply Late64_run_unmounted; [reflexivity | reflexivity | exact Hes].
  - intros es Hes. apply Late64_run_unloaded; [reflexivity | exact Hes].
  - intros es1 es2 es3 t p.
    destruct (Late64_run_loaded sh b es1 es2 es3) as [Hm [w Hw]]. fold p in Hm, Hw.
    split; [exact Hm|].
    destruct (Late64_run_ok sh b Hsh _ w Hw) as [Ha He].
    destruct (Late64_frame_writes t w Ha He) as (w' & Hf & H1 & H2 & H3 & H4 & H5 & _).
    exists w, w'. split; [exact Hw|]. split; [exact Hf|].
    split; [|split; [exact H1 | split; [exact H2 | split;
      [exact H3 | split; [exact H4 | exact H5]]]]].
    simpl. rewrite Hm, Hw. simpl. rewrite Hf. reflexivity.
Qed.

Lemma C8_witness :
  Late64.mounted
    (Late64.run RGBShiftShader64 true Late64.init
       ([Late64.AnimationFrame B64.one] ++ Late64.Mount ::
        [Late64.Scroll B64.two] ++ Late64.TexturesLoaded :: [Late64.Scroll B64.one]))
    = true /\
  exists w w',
    Late64.canvas
      (Late64.run RGBShiftShader64 true Late64.init
         ([Late64.AnimationFrame B64.one] ++ Late64.Mount ::
          [Late64.Scroll B64.two] ++ Late64.TexturesLoaded :: [Late64.Scroll B64.one]))
      = Some w /\
    Late64.frame B64.two w = Three64.Done w' /\
    Late64.canvas
      (Late64.step RGBShiftShader64 true
         (Late64.run RGBShiftShader64 true Late64.init
            ([Late64.AnimationFrame B64.one] ++ Late64.Mount ::
             [Late64.Scroll B64.two] ++ Late64.TexturesLoaded :: [Late64.Scroll B64.one]))
         (Late64.AnimationFrame B64.two)) = Some w' /\
    Late64.depth Late64.terrain1 w'
      = Some (B64.rem (B64.mul B64.two B64.zero) B64.two) /\
    Late64.depth Late64.terrain2 w'
      = Some (B64.sub (B64.rem (B64.mul B64.two B64.zero) B64.two) B64.two) /\
    Late64.depth Late64.terrain3 w'
      = Some (B64.add (B64.rem (B64.mul B64.two B64.zero) B64.two) B64.two) /\
    (exists pass, Late64.rgbShiftRef w' = Some pass /\
       Three64.uniform_value pass "amount" = Some (Three64.UNumber B64.lit_0_0012)) /\
    Late64_drawn w'.
Proof.
  assert (H : is_Some (Three64.shader_uniforms RGBShiftShader64 !! "amount"%string))
    by (vm_compute; eauto).
  exact (proj2 (proj2 (proj2 (C8_mount_gate RGBShiftShader64 H) true))
           [Late64.AnimationFrame B64.one] [Late64.Scroll B64.two] [Late64.Scroll B64.one]
           B64.two).
Defined.

(** C9.  Once the canvas is mounted no tick fails.  On a world in which
    everything the callbacks read is there, the frame callbacks (after the
    scroll effect, in the later revision) return a world, in which
    everything is there again; and from the initial page every trace of
    events runs to a page: the failure branch is never taken.  The
    remainder is taken by the literal 2, never by a variable. *)
Theorem C9_no_failure_path :
  (forall t w, Early.ready w = true ->
     exists w', Early.frame t w = Ok w' /\ Early.ready w' = true) /\
  (forall t s w, Late.ready w = true ->
     exists w', Late.frame t (Late.Foo_useEffect s w) = Ok w' /\
       Late.ready w' = true) /\
  (forall sh es, is_Some (shader_uniforms sh !! "amount"%string) ->
     exists p, Early.run sh Early.init es = Ok p) /\
  (forall sh es, is_Some (shader_uniforms sh !! "amount"%string) ->
     exists p, Late.run sh Late.init es = Ok p).
Proof.
  split; [|split; [|split]].
  - intros t [[m1|] [m2|] [pass|] [c|] cam]; unfold Early.ready, Early.attached; simpl;
      try discriminate;
      unfold Early.frame, Early.Landscape_useFrame, Early.Effects_useFrame,
        set_uniform_value; simpl;
      try destruct (uniforms pass !! "amount"%string) eqn:E; try discriminate;
      intros _; simpl; (eexists; split; [reflexivity|]);
      unfold Early.ready, Early.attached; simpl;
      rewrite ?lookup_insert_eq; reflexivity.
  - intros t s [[m1|] [m2|] [m3|] [pass|] [c|] cam]; unfold Late.ready, Late.attached;
      simpl; try discriminate;
      unfold Late.frame, Late.Landscape_useFrame, Late.Effects_useFrame,
        set_uniform_value; simpl;
      try destruct (uniforms pass !! "amount"%string) eqn:E; try discriminate;
      intros _; simpl; (eexists; split; [reflexivity|]);
      unfold Late.ready, Late.attached; simpl;
      rewrite ?lookup_insert_eq; reflexivity.
  - intros sh es Hsh.
    destruct (Early_run_ok sh Hsh es Early.init Early_init_ok) as (p & Hp & _). eauto.
  - intros sh es Hsh.
    destruct (Late_run_ok sh Hsh es Late.init Late_init_ok) as (p & Hp & _). eauto.
Qed.

Lemma C9_witness :
  (exists w', Early.frame 12 (Early.Canvas RGBShiftShader_stdlib) = Ok w' /\
     Early.ready w' = true) /\
  (exists p, Late.run RGBShiftShader_stdlib Late.init
     [Late.Scroll 10; Late.Mount; Late.AnimationFrame 3; Late.Scroll 0;
      Late.AnimationFrame 4] = Ok p).
Proof.
  split.
  - apply (proj1 C9_no_failure_path). vm_compute. reflexivity.
  - apply (proj2 (proj2 (proj2 C9_no_failure_path))). vm_compute. eauto.
Defined.

(** C10, as the specification states it, fails for the tick of [Effects]:
    its [render()] call puts the texture of the drawn scene in the
    [tDiffuse] uniform of the pass, which is [null] before the first
    frame, and the composer shows a drawing that it did not show before. *)
Lemma C10_counterexample :
  exists w' pass pass',
    Late64.Effects_useFrame (Late64.Canvas RGBShiftShader64) = Three64.Done w' /\
    Late64.rgbShiftRef (Late64.Canvas RGBShiftShader64) = Some pass /\
    Late64.rgbShiftRef w' = Some pass' /\
    Three64.uniform_value pass "tDiffuse" = Some Three64.UNull /\
    Three64.uniform_value pass' "tDiffuse" = Some Three64.UTexture /\
    Late64.composerRef (Late64.Canvas RGBShiftShader64)
      = Some {| Three64.screen := None |} /\
    Late64_drawn w'.
Proof.
  eexists; eexists; eexists.
  split; [reflexivity|]. split; [reflexivity|]. split; [reflexivity|].
  split; [reflexivity|]. split; [reflexivity|]. split; reflexivity.
Qed.

(** C10, amended.  A tick of [Landscape] changes nothing but the depth of
    each terrain, also when it throws: the x, the y and the rotation of
    every terrain, the shader pass, the composer and the camera are as
    before.  A tick of [Effects] leaves the terrains and the camera as they
    are; in the shader pass it keeps the names of the uniforms and changes
    no uniform other than [amount], which it assigns, and [tDiffuse], which
    the [render()] it calls fills.  So on every page that the events reach
    each terrain has the x, the y and the rotation of its construction.
    Both revisions. *)
Theorem C10_tick_frame_condition :
  (forall t w i m, Early64.terrainRef i w = Some m ->
     exists m',
       Early64.terrainRef i (Three64.world_of (Early64.Landscape_useFrame t w)) = Some m' /\
       Three64.x (Three64.position m') = Three64.x (Three64.position m) /\
       Three64.y (Three64.position m') = Three64.y (Three64.position m) /\
       Three64.rotation m' = Three64.rotation m) /\
  (forall t w,
     Early64.rgbShiftRef (Three64.world_of (Early64.Landscape_useFrame t w))
       = Early64.rgbShiftRef w /\
     Early64.composerRef (Three64.world_of (Early64.Landscape_useFrame t w))
       = Early64.composerRef w /\
     Early64.camera (Three64.world_of (Early64.Landscape_useFrame t w))
       = Early64.camera w) /\
  (forall w pass, Early64.rgbShiftRef w = Some pass ->
     (forall i, Early64.terrainRef i (Three64.world_of (Early64.Effects_useFrame w))
                = Early64.terrainRef i w) /\
     Early64.camera (Three64.world_of (Early64.Effects_useFrame w)) = Early64.camera w /\
     exists pass',
       Early64.rgbShiftRef (Three64.world_of (Early64.Effects_useFrame w)) = Some pass' /\
       (forall name, is_Some (Three64.uniforms pass' !! name)
                     <-> is_Some (Three64.uniforms pass !! name)) /\
       (forall name, name <> "amount"%string -> name <> "tDiffuse"%string ->
          Three64.uniforms pass' !! name = Three64.uniforms pass !! name)) /\
  (forall sh es w, Early64.canvas (Early64.run sh Early64.init es) = Some w ->
     Early64_terrains_ok w) /\
  (forall t w i m, Late64.terrainRef i w = Some m ->
     exists m',
       Late64.terrainRef i (Three64.world_of (Late64.Landscape_useFrame t w)) = Some m' /\
       Three64.x (Three64.position m') = Three64.x (Three64.position m) /\
       Three64.y (Three64.position m') = Three64.y (Three64.position m) /\
       Three64.rotation m' = Three64.rotation m) /\
  (forall t w,
     Late64.rgbShiftRef (Three64.world_of (Late64.Landscape_useFrame t w))
       = Late64.rgbShiftRef w /\
     Late64.composerRef (Three64.world_of (Late64.Landscape_useFrame t w))
       = Late64.composerRef w /\
     Late64.camera (Three64.world_of (Late64.Landscape_useFrame t w))
       = Late64.camera w) /\
  (forall w pass, Late64.rgbShiftRef w = Some pass ->
     (forall i, Late64.terrainRef i (Three64.world_of (Late64.Effects_useFrame w))
                = Late64.terrainRef i w) /\
     Late64.camera (Three64.world_of (Late64.Effects_useFrame w)) = Late64.camera w /\
     exists pass',
       Late64.rgbShiftRef (Three64.world_of (Late64.Effects_useFrame w)) = Some pass' /\
       (forall name, is_Some (Three64.uniforms pass' !! name)
                     <-> is_Some (Three64.uniforms pass !! name)) /\
       (forall name, name <> "amount"%string -> name <> "tDiffuse"%string ->
          Three64.uniforms pass' !! name = Three64.uniforms pass !! name)) /\
  (forall sh b es w, Late64.canvas (Late64.run sh b Late64.init es) = Some w ->
     Late64_terrains_ok w).
Proof.
  split; [intros t w; apply (Early64_Landscape_keeps t w)|].
  split; [intros t w; apply (Early64_Landscape_keeps t w)|].
  split.
  { intros w pass Hp. destruct (Early64_Effects_keeps w) as (H1 & H2 & H3).
    split; [exact H1|]. split; [exact H2|]. apply (H3 pass Hp). }
  split.
  { intros sh es. apply (Early64_run_canvas sh Early64_terrains_ok).
    - intros []; eexists; (split; [reflexivity|]); (split; [reflexivity|]);
        split; reflexivity.
    - apply Early64_frame_terrains_ok.
    - intros w H. discriminate H. }
  split; [intros t w; apply (Late64_Landscape_keeps t w)|].
  split; [intros t w; apply (Late64_Landscape_keeps t w)|].
  split.
  { intros w pass Hp. destruct (Late64_Effects_keeps w) as (H1 & H2 & H3).
    split; [exact H1|]. split; [exact H2|]. apply (H3 pass Hp). }
  intros sh b es. apply (Late64_run_canvas sh b Late64_terrains_ok).
  - intros []; eexists; (split; [reflexivity|]); (split; [reflexivity|]);
      split; reflexivity.
  - apply Late64_frame_terrains_ok.
  - intros s w H i. destruct (H i) as (m & Hm & Hrest). exists m.
    split; [destruct i; exact Hm | exact Hrest].
  - intros w H. discriminate H.
Qed.

Lemma C10_witness :
  exists w,
    Late64.canvas
      (Late64.run RGBShiftShader64 true Late64.init
         [Late64.Mount; Late64.TexturesLoaded; Late64.AnimationFrame B64.one;
          Late64.Scroll B64.two; Late64.AnimationFrame B64.two]) = Some w /\
    Late64_terrains_ok w.
Proof.
  eexists. split; [reflexivity|].
  apply (proj2 (proj2 (proj2 (proj2 (proj2 (proj2 (proj2 C10_tick_frame_condition))))))
           RGBShiftShader64 true
           [Late64.Mount; Late64.TexturesLoaded; Late64.AnimationFrame B64.one;
            Late64.Scroll B64.two; Late64.AnimationFrame B64.two]).
  reflexivity.
Defined.

(** * Further properties of the code *)

(** ** When the callbacks fail *)

(** X3.  The frame callbacks succeed exactly on the worlds where what they
    read is there.  On a world that is not ready (a terrain ref or the
    composer ref unattached, or the attached pass without an [amount]
    uniform) the frame throws, and what it throws is a [TypeError]; it
    never produces a number that is not one.  Both revisions. *)
Theorem X3_frame_fails_exactly_when_not_ready :
  (forall t w,
     match Early.frame t w with
     | Ok w' => Early.ready w = true /\ Early.ready w' = true
     | Throw e => e = TypeError /\ Early.ready w = false
     end) /\
  (forall t w,
     match Late.frame t w with
     | Ok w' => Late.ready w = true /\ Late.ready w' = true
     | Throw e => e = TypeError /\ Late.ready w = false
     end).
Proof.
  split.
  - intros t [[m1|] [m2|] [pass|] [c|] cam];
      unfold Early.frame, Early.Landscape_useFrame, Early.Effects_useFrame,
        set_uniform_value, Early.ready, Early.attached; simpl;
      try destruct (uniforms pass !! "amount"%string) eqn:E; simpl;
      rewrite ?lookup_insert_eq; auto.
  - intros t [[m1|] [m2|] [m3|] [pass|] [c|] cam];
      unfold Late.frame, Late.Landscape_useFrame, Late.Effects_useFrame,
        set_uniform_value, Late.ready, Late.attached; simpl;
      try destruct (uniforms pass !! "amount"%string) eqn:E; simpl;
      rewrite ?lookup_insert_eq; auto.
Qed.



(** ** Frames in sequence *)

(** X7.  A frame forgets the frames before it: after a frame at one
    elapsed time, a frame at another gives the world that it would have
    given without the first.  Both revisions. *)
Theorem X7_frame_forgets_earlier_frames :
  (forall t1 t2 w w1, Early.frame t1 w = Ok w1 -> Early.frame t2 w1 = Early.frame t2 w) /\
  (forall t1 t2 w w1, Late.frame t1 w = Ok w1 -> Late.frame t2 w1 = Late.frame t2 w).
Proof.
  split.
  - unfold Early.frame. intros t1 t2 w w1 H.
    destruct (Early.Landscape_useFrame t1 w) as [w0|] eqn:HL; simpl in H; [|discriminate].
    apply Early_Landscape_inv in HL as (m1 & m2 & H1 & H2 & ->).
    apply Early_Effects_inv in H as [[c Hc] [[Hr ->] | (pass & Hr & [u Hu] & ->)]];
      destruct w as [r1 r2 rp rc cam]; simpl in *; subst;
      unfold Early.Landscape_useFrame; rewrite ?rem_two; simpl;
      unfold Early.Effects_useFrame, set_uniform_value; simpl.
    + reflexivity.
    + rewrite lookup_insert_eq, Hu. simpl. rewrite insert_insert_eq. reflexivity.
  - unfold Late.frame. intros t1 t2 w w1 H.
    destruct (Late.Landscape_useFrame t1 w) as [w0|] eqn:HL; simpl in H; [|discriminate].
    apply Late_Landscape_inv in HL as (m1 & m2 & m3 & H1 & H2 & H3 & ->).
    apply Late_Effects_inv in H as [[c Hc] [[Hr ->] | (pass & Hr & [u Hu] & ->)]];
      destruct w as [r1 r2 r3 rp rc cam]; simpl in *; subst;
      unfold Late.Landscape_useFrame; rewrite ?rem_two; simpl;
      unfold Late.Effects_useFrame, set_uniform_value; simpl.
    + reflexivity.
    + rewrite lookup_insert_eq, Hu. simpl. rewrite insert_insert_eq. reflexivity.
Qed.

Lemma X7_witness :
  exists w1,
    Early.frame 7 (Early.Canvas RGBShiftShader_stdlib) = Ok w1 /\
    Early.frame 12 w1 = Early.frame 12 (Early.Canvas RGBShiftShader_stdlib).
Proof.
  eexists. split; [reflexivity|].
  apply (proj1 X7_frame_forgets_earlier_frames 7 12 (Early.Canvas RGBShiftShader_stdlib)).
  reflexivity.
Defined.

(** ** Scrolling *)

Lemma same_but_camera_position_refl w : same_but_camera_position w w.
Proof. repeat split. Qed.

(** X8.  Scrolling alone never advances the animation: a trace of scroll
    events runs without failure from any page, leaves the mount flag and
    the tick count as they are, and changes nothing of the canvas but the
    position of the camera (the terrains, the shader pass, the composer and
    the rotation of the camera are kept). *)
Theorem X8_scrolling_moves_the_camera_only :
  forall sh es p, forallb is_scroll es = true ->
    exists p', Late.run sh p es = Ok p' /\
      Late.mounted p' = Late.mounted p /\ Late.ticks p' = Late.ticks p /\
      match Late.canvas p with
      | Some w => exists w', Late.canvas p' = Some w' /\ same_but_camera_position w w'
      | None => Late.canvas p' = None
      end.
Proof.
  intros sh es. induction es as [|e es IH]; intros p Hes.
  - exists p. repeat split. destruct (Late.canvas p) as [w|]; [|reflexivity].
    exists w. split; [reflexivity | apply same_but_camera_position_refl].
  - simpl in Hes. apply andb_prop in Hes as [He Hes].
    destruct e as [|t|s]; try discriminate. simpl.
    destruct (Qeq_bool s (Late.scroll p)); simpl; [apply IH, Hes|].
    destruct (IH {| Late.mounted := Late.mounted p; Late.scroll := s;
                    Late.canvas := match Late.canvas p with
                                   | Some w => Some (Late.Foo_useEffect s w)
                                   | None => None
                                   end;
                    Late.ticks := Late.ticks p |} Hes)
      as (p' & Hrun & Hm & Ht & Hc).
    exists p'. simpl in *. repeat split; try assumption.
    destruct (Late.canvas p) as [w|]; [|exact Hc].
    destruct Hc as (w' & Hw' & Ht' & Hp' & Hc' & Hr').
    exists w'. split; [exact Hw'|].
    split; [|split; [|split]]; [|exact Hp'|exact Hc'|exact Hr'].
    intros i. rewrite (Ht' i). destruct i; reflexivity.
Qed.

Lemma X8_witness :
  exists p',
    Late.run RGBShiftShader_stdlib
      {| Late.mounted := true; Late.scroll := 0;
         Late.canvas := Some (Late.Canvas RGBShiftShader_stdlib);
         Late.ticks := 3 |}
      [Late.Scroll 120; Late.Scroll 40] = Ok p' /\
    Late.mounted p' = true /\ Late.ticks p' = 3%nat /\
    exists w', Late.canvas p' = Some w' /\
      same_but_camera_position (Late.Canvas RGBShiftShader_stdlib) w'.
Proof.
  apply (X8_scrolling_moves_the_camera_only RGBShiftShader_stdlib
           [Late.Scroll 120; Late.Scroll 40]
           {| Late.mounted := true; Late.scroll := 0;
              Late.canvas := Some (Late.Canvas RGBShiftShader_stdlib);
              Late.ticks := 3 |}).
  reflexivity.
Defined.




(** ** Rendering [Scene] *)

(** The mount flag is set exactly when the mount effect has run. *)
Lemma Early_mounted_iff sh es : forall p p',
  Early.run sh p es = Ok p' ->
  (Early.mounted p' = true <-> Early.mounted p = true \/ In Early.Mount es).
Proof.
  induction es as [|e es IH]; intros p p' H; simpl in H.
  - injection H as <-. simpl. tauto.
  - destruct (Early.step sh p e) as [p1|] eqn:Hs; simpl in H; [|discriminate].
    rewrite (IH _ _ H). destruct e as [|t]; simpl in Hs.
    + destruct (Early.mounted p) eqn:Hm; injection Hs as <-; simpl; rewrite ?Hm; tauto.
    + assert (Hm : Early.mounted p1 = Early.mounted p).
      { destruct (Early.mounted p) eqn:Hm; simpl in Hs; [|injection Hs as <-; exact Hm].
        destruct (Early.canvas p) as [w|]; [|injection Hs as <-; exact Hm].
        destruct (Early.frame t w); simpl in Hs; [|discriminate].
        injection Hs as <-. reflexivity. }
      rewrite Hm. simpl. split; [intros [H1 | H1]; auto | intros [H1 | [H1 | H1]]; auto].
      discriminate.
Qed.

Lemma Late_mounted_iff sh es : forall p p',
  Late.run sh p es = Ok p' ->
  (Late.mounted p' = true <-> Late.mounted p = true \/ In Late.Mount es).
Proof.
  induction es as [|e es IH]; intros p p' H; simpl in H.
  - injection H as <-. simpl. tauto.
  - destruct (Late.step sh p e) as [p1|] eqn:Hs; simpl in H; [|discriminate].
    rewrite (IH _ _ H). destruct e as [|t|s]; simpl in Hs.
    + destruct (Late.mounted p) eqn:Hm; injection Hs as <-; simpl; rewrite ?Hm; tauto.
    + assert (Hm : Late.mounted p1 = Late.mounted p).
      { destruct (Late.mounted p) eqn:Hm; simpl in Hs; [|injection Hs as <-; exact Hm].
        destruct (Late.canvas p) as [w|]; [|injection Hs as <-; exact Hm].
        destruct (Late.frame t w); simpl in Hs; [|discriminate].
        injection Hs as <-. reflexivity. }
      rewrite Hm. simpl. split; [intros [H1 | H1]; auto | intros [H1 | [H1 | H1]]; auto].
      discriminate.
    + assert (Hm : Late.mounted p1 = Late.mounted p)
        by (destruct (Qeq_bool s (Late.scroll p)); injection Hs as <-; reflexivity).
      rewrite Hm. simpl. split; [intros [H1 | H1]; auto | intros [H1 | [H1 | H1]]; auto].
      discriminate.
Qed.

Lemma Scene_render_unmounted window :
  Render.Scene_render false window = Render.Returns Render.Null.
Proof. reflexivity. Qed.

Lemma Scene_render_mounted win :
  exists dpr,
    Render.Scene_render true (Some win) = Render.Returns (Render.CanvasElement dpr) /\
    dpr <= 2 /\ dpr <= Render.devicePixelRatio win /\
    (Render.devicePixelRatio win <= 2 -> dpr == Render.devicePixelRatio win) /\
    (2 <= Render.devicePixelRatio win -> dpr == 2).
Proof.
  eexists. split; [reflexivity|].
  split; [apply Q.le_min_r|]. split; [apply Q.le_min_l|].
  split; [apply Q.min_l | apply Q.min_r].
Qed.

(** X10.  The [mounted] flag keeps [Scene] from reading [window] where
    there is none.  On a page reached by a trace without the mount effect
    (as on the server, where effects do not run) [Scene] renders [null]
    whether or not a window is declared.  Once the mount effect has run,
    rendering without a window throws a [ReferenceError], and with one it
    returns the canvas, whose pixel ratio is that of the device capped at
    2.  Both revisions. *)
Theorem X10_mounted_flag_guards_window :
  (forall sh es p, Early.run sh Early.init es = Ok p ->
     (~ In Early.Mount es ->
        forall window,
          Render.Scene_render (Early.mounted p) window = Render.Returns Render.Null) /\
     (In Early.Mount es ->
        Render.Scene_render (Early.mounted p) None = Render.ReferenceError /\
        forall win, exists dpr,
          Render.Scene_render (Early.mounted p) (Some win) =
            Render.Returns (Render.CanvasElement dpr) /\
          dpr <= 2 /\ dpr <= Render.devicePixelRatio win /\
          (Render.devicePixelRatio win <= 2 -> dpr == Render.devicePixelRatio win) /\
          (2 <= Render.devicePixelRatio win -> dpr == 2))) /\
  (forall sh es p, Late.run sh Late.init es = Ok p ->
     (~ In Late.Mount es ->
        forall window,
          Render.Scene_render (Late.mounted p) window = Render.Returns Render.Null) /\
     (In Late.Mount es ->
        Render.Scene_render (Late.mounted p) None = Render.ReferenceError /\
        forall win, exists dpr,
          Render.Scene_render (Late.mounted p) (Some win) =
            Render.Returns (Render.CanvasElement dpr) /\
          dpr <= 2 /\ dpr <= Render.devicePixelRatio win /\
          (Render.devicePixelRatio win <= 2 -> dpr == Render.devicePixelRatio win) /\
          (2 <= Render.devicePixelRatio win -> dpr == 2))).
Proof.
  split; intros sh es p Hp.
  - pose proof (Early_mounted_iff sh es _ _ Hp) as Hm. simpl in Hm. split.
    + intros Hno window. destruct (Early.mounted p); [|apply Scene_render_unmounted].
      exfalso. apply Hno. destruct Hm as [Hm _]. destruct (Hm eq_refl); [discriminate | assumption].
    + intros Hin. replace (Early.mounted p) with true by (symmetry; apply Hm; auto).
      split; [reflexivity | apply Scene_render_mounted].
  - pose proof (Late_mounted_iff sh es _ _ Hp) as Hm. simpl in Hm. split.
    + intros Hno window. destruct (Late.mounted p); [|apply Scene_render_unmounted].
      exfalso. apply Hno. destruct Hm as [Hm _]. destruct (Hm eq_refl); [discriminate | assumption].
    + intros Hin. replace (Late.mounted p) with true by (symmetry; apply Hm; auto).
      split; [reflexivity | apply Scene_render_mounted].
Qed.

Lemma X10_witness :
  exists p1 p2,
    Late.run RGBShiftShader_stdlib Late.init
      [Late.AnimationFrame 1; Late.Scroll 30] = Ok p1 /\
    (forall window,
       Render.Scene_render (Late.mounted p1) window = Render.Returns Render.Null) /\
    Late.run RGBShiftShader_stdlib Late.init [Late.Scroll 30; Late.Mount] = Ok p2 /\
    Render.Scene_render (Late.mounted p2) None = Render.ReferenceError.
Proof.
  eexists. eexists.
  split; [reflexivity|]. split; [|split; [reflexivity|]].
  - apply (proj2 X10_mounted_flag_guards_window RGBShiftShader_stdlib
             [Late.AnimationFrame 1; Late.Scroll 30]); [reflexivity|].
    simpl. intros [H | [H | H]]; first [discriminate | exact H].
  - apply (proj2 X10_mounted_flag_guards_window RGBShiftShader_stdlib
             [Late.Scroll 30; Late.Mount]); [reflexivity|].
    right. left. reflexivity.
Defined.

(** ** The resize effect of [Effects] *)

(** X12.  The resize effect of [Effects] reaches the composer through
    [current] without a guard (its [?.] is on the ref object), so it throws
    a [TypeError] when the composer is not attached; on every page that the
    events reach the composer of the canvas is attached, and the effect
    gives it the size it is passed, whatever that size is.  Both
    revisions. *)
Theorem X12_resize_effect_on_mounted_canvas :
  (forall size, Render.Effects_useEffect size None = Throw TypeError) /\
  (forall sh es, is_Some (shader_uniforms sh !! "amount"%string) ->
     exists p, Early.run sh Early.init es = Ok p /\
       forall w size, Early.canvas p = Some w ->
         Render.Effects_useEffect size (Early.composerRef w) =
         Ok (Render.width size, Render.height size)) /\
  (forall sh es, is_Some (shader_uniforms sh !! "amount"%string) ->
     exists p, Late.run sh Late.init es = Ok p /\
       forall w size, Late.canvas p = Some w ->
         Render.Effects_useEffect size (Late.composerRef w) =
         Ok (Render.width size, Render.height size)).
Proof.
  split; [reflexivity|]. split; intros sh es Hsh.
  - destruct (Early_run_ok sh Hsh es Early.init Early_init_ok) as (p & Hp & Hok & _).
    exists p. split; [exact Hp|]. intros w size Hw.
    unfold Early_page_ok in Hok. destruct (Early.mounted p).
    + destruct Hok as (w0 & Hw0 & (_ & _ & Hc) & _).
      assert (w0 = w) by congruence. subst w0. rewrite Hc. reflexivity.
    + destruct Hok as [Hn _]. congruence.
  - destruct (Late_run_ok sh Hsh es Late.init Late_init_ok) as (p & Hp & Hok & _).
    exists p. split; [exact Hp|]. intros w size Hw.
    unfold Late_page_ok in Hok. destruct (Late.mounted p).
    + destruct Hok as (w0 & Hw0 & (_ & _ & Hc) & _).
      assert (w0 = w) by congruence. subst w0. rewrite Hc. reflexivity.
    + destruct Hok as [Hn _]. congruence.
Qed.

Lemma X12_witness :
  exists p,
    Late.run RGBShiftShader_stdlib Late.init
      [Late.Mount; Late.AnimationFrame 1; Late.Scroll 9] = Ok p /\
    forall w size, Late.canvas p = Some w ->
      Render.Effects_useEffect size (Late.composerRef w) =
      Ok (Render.width size, Render.height size).
Proof.
  apply (proj2 (proj2 X12_resize_effect_on_mounted_canvas)). vm_compute. eauto.
Defined.

(** ** What the pages keep *)

(** X13.  The camera of the later revision is where the last scroll event
    put it: when a canvas is committed and the page scrolls to an offset
    [s] other than the one it stores, then, whatever mounts, loads and
    frames follow, the page stores [s] and the camera of its canvas is at
    x = 0, y = 0.1 and the depth [-2.4 + s * 0.003] of the doubles. *)
Theorem X13_camera_follows_the_last_scroll :
  forall sh b p w0 s es,
    Late64.canvas p = Some w0 ->
    B64.Object_is s (Late64.scroll p) = false ->
    forallb no_scroll es = true ->
    Late64.scroll (Late64.run sh b p (Late64.Scroll s :: es)) = s /\
    exists w, Late64.canvas (Late64.run sh b p (Late64.Scroll s :: es)) = Some w /\
      Three64.position (Late64.camera w) = Foo_position s /\
      Three64.rotation (Late64.camera w) = Three64.rotation (Late64.camera w0).
Proof.
  intros sh b p w0 s es Hw0 Hs Hes. simpl. rewrite Hs, Hw0.
  destruct (Late64_run_no_scroll sh b es
              {| Late64.mounted := Late64.mounted p; Late64.scroll := s;
                 Late64.canvas := Some (Late64.Foo_useEffect s w0) |}
              _ eq_refl Hes) as (Hscroll & w & Hw & Hc).
  split; [exact Hscroll|]. exists w. split; [exact Hw|]. rewrite Hc. split; reflexivity.
Qed.

Lemma X13_witness :
  Late64.scroll
    (Late64.run RGBShiftShader64 false
       (Late64.run RGBShiftShader64 false Late64.init
          [Late64.Scroll (Prim2SF 10); Late64.Mount; Late64.TexturesLoaded])
       (Late64.Scroll (Prim2SF 500) ::
        [Late64.AnimationFrame B64.one; Late64.AnimationFrame B64.two]))
    = Prim2SF 500 /\
  exists w,
    Late64.canvas
      (Late64.run RGBShiftShader64 false
         (Late64.run RGBShiftShader64 false Late64.init
            [Late64.Scroll (Prim2SF 10); Late64.Mount; Late64.TexturesLoaded])
         (Late64.Scroll (Prim2SF 500) ::
          [Late64.AnimationFrame B64.one; Late64.AnimationFrame B64.two])) = Some w /\
    Three64.position (Late64.camera w) = Foo_position (Prim2SF 500) /\
    Three64.rotation (Late64.camera w)
      = Three64.rotation (Late64.camera (Late64.Canvas RGBShiftShader64)).
Proof.
  apply (X13_camera_follows_the_last_scroll RGBShiftShader64 false
           (Late64.run RGBShiftShader64 false Late64.init
              [Late64.Scroll (Prim2SF 10); Late64.Mount; Late64.TexturesLoaded])
           (Late64.Canvas RGBShiftShader64) (Prim2SF 500)
           [Late64.AnimationFrame B64.one; Late64.AnimationFrame B64.two]);
    reflexivity.
Defined.

(** The terrains of the later revision, at the depths of their
    construction. *)
Lemma Late_run_terrains sh es : forall p p',
  Late.run sh p es = Ok p' ->
  (forall w, Late.canvas p = Some w ->
     forall i, exists d, Late.depth i w = Some d /\ d == Late.stagger i) ->
  forall w', Late.canvas p' = Some w' ->
    forall i, exists d, Late.depth i w' = Some d /\ d == Late.stagger i.
Proof.
  induction es as [|e es IH]; intros p p' H Hp; simpl in H.
  - injection H as <-. exact Hp.
  - destruct (Late.step sh p e) as [p1|] eqn:Hs; simpl in H; [|discriminate].
    apply (IH _ _ H). intros w1 Hw1 i.
    destruct e as [|t|s]; simpl in Hs.
    + destruct (Late.mounted p); injection Hs as <-; [apply (Hp _ Hw1)|].
      simpl in Hw1. injection Hw1 as <-.
      destruct i; eexists; (split; [reflexivity|]); reflexivity.
    + destruct (Late.mounted p); simpl in Hs; [|injection Hs as <-; apply (Hp _ Hw1)].
      destruct (Late.canvas p) as [w|] eqn:Hc; [|injection Hs as <-; congruence].
      destruct (Late.frame t w) as [w2|] eqn:Hf; simpl in Hs; [|discriminate].
      injection Hs as <-. simpl in Hw1. injection Hw1 as <-.
      unfold Late.frame in Hf.
      destruct (Late.Landscape_useFrame t w) as [w0|] eqn:HL; simpl in Hf; [|discriminate].
      pose proof (Late_depth_after _ _ _ i HL) as Hd.
      assert (Hsame : Late.depth i w2 = Late.depth i w0).
      { destruct (Late_Effects_inv _ _ Hf) as [_ [[_ ->] | (pass & _ & _ & ->)]];
          destruct i; reflexivity. }
      rewrite Hsame, Hd. eexists. split; [reflexivity|].
      pose proof (fmod_times_zero t) as E. destruct i; simpl; lra.
    + destruct (Qeq_bool s (Late.scroll p)); injection Hs as <-; [apply (Hp _ Hw1)|].
      simpl in Hw1. destruct (Late.canvas p) as [w|] eqn:Hc; [|discriminate].
      injection Hw1 as <-. destruct (Hp w eq_refl i) as (d & Hd & E).
      exists d. split; [|exact E]. rewrite <- Hd. destruct i; reflexivity.
Qed.

(** X14.  Nothing moves the terrains of the later revision: on every page
    that the events reach, whatever the frames and scrolls before it, each
    terrain of the canvas is at the depth it was constructed with. *)
Theorem X14_late_terrains_never_move :
  forall sh es p, Late.run sh Late.init es = Ok p ->
    forall w, Late.canvas p = Some w ->
      forall i, exists d, Late.depth i w = Some d /\ d == Late.stagger i.
Proof.
  intros sh es p Hp. apply (Late_run_terrains sh es _ _ Hp).
  intros w H. discriminate H.
Qed.

Lemma X14_witness :
  exists p,
    Late.run RGBShiftShader_stdlib Late.init
      [Late.Mount; Late.AnimationFrame 5; Late.Scroll 70; Late.AnimationFrame 6] = Ok p /\
    exists w, Late.canvas p = Some w /\
      forall i, exists d, Late.depth i w = Some d /\ d == Late.stagger i.
Proof.
  eexists. split; [reflexivity|]. eexists. split; [reflexivity|].
  apply (X14_late_terrains_never_move RGBShiftShader_stdlib
           [Late.Mount; Late.AnimationFrame 5; Late.Scroll 70; Late.AnimationFrame 6]
           _ eq_refl _ eq_refl).
Defined.


